(** * Grid Singularity Exchange: balancing market and inter-area forwarding engine

    A shallow embedding of
      - [src/gsy_e/models/market/balancing.py]  (class [BalancingMarket])
      - [src/gsy_e/models/strategy/area_agents/one_sided_engine.py]
        (classes [IAAEngine] and [BalancingEngine])
    and the properties of the specification checked against them.

    Conventions of the embedding.
    - Python numbers (prices, energies, rates) are exact rationals [Q];
      floating-point rounding is not modelled, so "equal within
      tolerance" is stated as [==] on [Q].
    - A Python dict used as a map is a [gmap]; [d.pop(k, None)] is
      [delete], [d[k] = v] is [insert].
    - A method is a computation in the monad [M S], which threads the
      mutable object [S] and may raise: the state reached at the moment an
      exception is raised is kept, as in Python.
    - Objects are embedded by value.  Collaborators whose code is not part
      of the two files above are arguments of the model (records
      [MarketEnv] and [Owner]). *)

From Stdlib Require Import QArith Qabs Lqa.
From stdpp Require Import gmap strings list fin_maps stringmap.

Local Open Scope string_scope.
Local Open Scope list_scope.

(** ** Exceptions *)

(** The exception classes of [gsy_e.gsy_e_core.exceptions] that the two
    files raise or catch, together with the built-in ones that their
    statements can raise. *)
Inductive exn : Type :=
  | MarketException
  | MarketReadOnlyException
  | OfferNotFoundException
  | InvalidOffer
  | InvalidBalancingTradeException
  | DeviceNotInRegistryError
  | AssertionError
  | TypeError
  | ZeroDivisionError
  | KeyError
  | RuntimeError.

(** Modelled from the spec: the class hierarchy of
    [gsy_e.gsy_e_core.exceptions] (section 7 lists the market errors as one
    taxonomy).  [event_offer_traded] lists [except OfferNotFoundException]
    before [except MarketException], the order Python needs when the first
    class derives from the second.  [isinstance(e, MarketException)]. *)
Definition is_MarketException (e : exn) : bool :=
  match e with
  | MarketException | MarketReadOnlyException | OfferNotFoundException
  | InvalidOffer | InvalidBalancingTradeException
  | DeviceNotInRegistryError => true
  | _ => false
  end.

(** ** The state and exception monad *)

Definition M (S A : Type) : Type := S → S * (exn + A).

Definition ret {S A} (a : A) : M S A := λ s, (s, inr a).

Definition bind {S A B} (c : M S A) (k : A → M S B) : M S B :=
  λ s, match c s with
       | (s', inr a) => k a s'
       | (s', inl e) => (s', inl e)
       end.

Definition raise {S A} (e : exn) : M S A := λ s, (s, inl e).

Definition get {S} : M S S := λ s, (s, inr s).

Definition modify {S} (f : S → S) : M S unit := λ s, (f s, inr tt).

(** [try: body except Exception as e: handler e]; the handler runs in the
    state the body had reached. *)
Definition try_except {S A} (body : M S A) (handler : exn → M S A) : M S A :=
  λ s, match body s with
       | (s', inl e) => handler e s'
       | r => r
       end.

(** A pure computation that can raise, run inside a method. *)
Definition lift {S A} (r : exn + A) : M S A := λ s, (s, r).

(** [assert b]. *)
Definition py_assert {S} (b : bool) : M S unit :=
  if b then ret tt else raise AssertionError.

Declare Scope py_scope.
Delimit Scope py_scope with py.
Notation "x <- c ;; k" := (bind c (λ x, k))
  (at level 100, c at next level, right associativity) : py_scope.
Notation "c ;;; k" := (bind c (λ _, k))
  (at level 100, right associativity) : py_scope.
Local Open Scope py_scope.

(** [for x in l: body x]. *)
Fixpoint for_each {S A} (l : list A) (body : A → M S unit) : M S unit :=
  match l with
  | [] => ret tt
  | x :: l' => body x ;;; for_each l' body
  end.

(** ** Python arithmetic on numbers *)

(** [x / y]: true division raises [ZeroDivisionError] on a zero divisor. *)
Definition py_div (x y : Q) : exn + Q :=
  if Qeq_bool y 0 then inl ZeroDivisionError else inr (x / y)%Q.

Definition Qltb (x y : Q) : bool := negb (Qle_bool y x).

(** [x < y] where [y] may be [None]: ordering a number with [None] raises
    [TypeError] in Python 3. *)
Definition py_lt_opt (x : Q) (y : option Q) : exn + bool :=
  match y with
  | None => inl TypeError
  | Some y => inr (Qltb x y)
  end.

(** [x > y] where [y] may be [None]. *)
Definition py_gt_opt (x : Q) (y : option Q) : exn + bool :=
  match y with
  | None => inl TypeError
  | Some y => inr (Qltb y x)
  end.

(** ** Data classes *)

(** [gsy_framework.data_classes.BalancingOffer] (a subclass of [Offer]).
    The framework is a dependency of the repository; the fields are the
    ones the two files read and write. *)
Module Offer.
Record t : Type := mk {
  id : string;
  creation_time : Z;
  price : Q;
  energy : Q;
  seller : string;
  original_price : Q;
  seller_origin : option string;
  seller_origin_id : option string;
  seller_id : option string;
  attributes : option string;
  requirements : option string;
  time_slot : Z
}.

(** The constructor call of [balancing_offer]:
    [BalancingOffer(offer_id, now, price, energy, seller,
    seller_origin=.., attributes=.., requirements=.., time_slot=..)].
    No [original_price] is passed, and the constructor then takes the
    price for it ([tests/market/test_market.py], [test_orders_per_slot]:
    [Offer("offer1", t, 10, 10, "seller")] has [original_price] 10);
    [seller_origin_id] and [seller_id] stay [None]. *)
Definition BalancingOffer (id : string) (creation_time : Z) (price energy : Q)
    (seller : string) (seller_origin attributes requirements : option string)
    (time_slot : Z) : t :=
  mk id creation_time price energy seller price seller_origin None None
     attributes requirements time_slot.

(** The property [energy_rate]: [price / energy]. *)
Definition energy_rate (o : t) : exn + Q := py_div (price o) (energy o).

(** [offer.update_price(price)]. *)
Definition update_price (o : t) (p : Q) : t :=
  mk (id o) (creation_time o) p (energy o) (seller o) (original_price o)
     (seller_origin o) (seller_origin_id o) (seller_id o)
     (attributes o) (requirements o) (time_slot o).
End Offer.

(** [gsy_framework.data_classes.BalancingTrade]. *)
Module BalancingTrade.
Record t : Type := mk {
  id : string;
  creation_time : Z;
  offer_bid : Offer.t;
  seller : string;
  buyer : string;
  residual : option Offer.t;
  seller_origin : option string;
  buyer_origin : option string;
  fee_price : Q;
  seller_origin_id : option string;
  seller_id : option string;
  buyer_origin_id : option string;
  buyer_id : option string;
  time_slot : Z;
  offer_bid_trade_info : option string
}.
End BalancingTrade.

(** [gsy_e.events.event_structures.MarketEvent], with the keyword
    arguments of the notification. *)
Inductive MarketEvent : Type :=
  | BALANCING_OFFER (offer : Offer.t)
  | BALANCING_OFFER_SPLIT (original_offer accepted_offer residual_offer : Offer.t)
  | BALANCING_TRADE (trade : BalancingTrade.t)
  | BALANCING_OFFER_DELETED (offer : Offer.t).

(** ** The balancing market *)

Module BalancingMarket.

(** The attributes of a [BalancingMarket] object.  [notifications] is the
    sequence of calls to [_notify_listeners], oldest first. *)
Record t : Type := mk {
  readonly : bool;
  now : Z;
  time_slot : Z;
  _is_constant_fees : bool;
  grid_fee_rate : Q;
  offers : gmap string Offer.t;
  offer_history : list Offer.t;
  trades : list BalancingTrade.t;
  traded_energy : gmap string Q;
  notifications : list MarketEvent;
  accumulated_supply_balancing_trade_price : Q;
  accumulated_supply_balancing_trade_energy : Q;
  accumulated_demand_balancing_trade_price : Q;
  accumulated_demand_balancing_trade_energy : Q
}.

Definition set_offers (f : gmap string Offer.t → gmap string Offer.t) (m : t) : t :=
  mk (readonly m) (now m) (time_slot m) (_is_constant_fees m) (grid_fee_rate m)
     (f (offers m)) (offer_history m) (trades m) (traded_energy m)
     (notifications m)
     (accumulated_supply_balancing_trade_price m)
     (accumulated_supply_balancing_trade_energy m)
     (accumulated_demand_balancing_trade_price m)
     (accumulated_demand_balancing_trade_energy m).

Definition set_offer_history (f : list Offer.t → list Offer.t) (m : t) : t :=
  mk (readonly m) (now m) (time_slot m) (_is_constant_fees m) (grid_fee_rate m)
     (offers m) (f (offer_history m)) (trades m) (traded_energy m)
     (notifications m)
     (accumulated_supply_balancing_trade_price m)
     (accumulated_supply_balancing_trade_energy m)
     (accumulated_demand_balancing_trade_price m)
     (accumulated_demand_balancing_trade_energy m).

Definition set_trades (f : list BalancingTrade.t → list BalancingTrade.t) (m : t) : t :=
  mk (readonly m) (now m) (time_slot m) (_is_constant_fees m) (grid_fee_rate m)
     (offers m) (offer_history m) (f (trades m)) (traded_energy m)
     (notifications m)
     (accumulated_supply_balancing_trade_price m)
     (accumulated_supply_balancing_trade_energy m)
     (accumulated_demand_balancing_trade_price m)
     (accumulated_demand_balancing_trade_energy m).

Definition set_traded_energy (f : gmap string Q → gmap string Q) (m : t) : t :=
  mk (readonly m) (now m) (time_slot m) (_is_constant_fees m) (grid_fee_rate m)
     (offers m) (offer_history m) (trades m) (f (traded_energy m))
     (notifications m)
     (accumulated_supply_balancing_trade_price m)
     (accumulated_supply_balancing_trade_energy m)
     (accumulated_demand_balancing_trade_price m)
     (accumulated_demand_balancing_trade_energy m).

Definition set_notifications (f : list MarketEvent → list MarketEvent) (m : t) : t :=
  mk (readonly m) (now m) (time_slot m) (_is_constant_fees m) (grid_fee_rate m)
     (offers m) (offer_history m) (trades m) (traded_energy m)
     (f (notifications m))
     (accumulated_supply_balancing_trade_price m)
     (accumulated_supply_balancing_trade_energy m)
     (accumulated_demand_balancing_trade_price m)
     (accumulated_demand_balancing_trade_energy m).

Definition set_accumulated (sp se dp de : Q) (m : t) : t :=
  mk (readonly m) (now m) (time_slot m) (_is_constant_fees m) (grid_fee_rate m)
     (offers m) (offer_history m) (trades m) (traded_energy m)
     (notifications m) sp se dp de.

(** What the market takes from its surroundings. *)
Record MarketEnv : Type := mkEnv {
  (** the keys of the global [DeviceRegistry.REGISTRY] *)
  REGISTRY : gset string;
  (** [str(uuid.uuid4())]: an identifier, given the identifiers in use *)
  uuid4 : gset string → string;
  (** the fee policy of the parent class [OneSidedMarket]:
      [energy, trade_rate, energy_portion, original_price] to
      [(fees, trade_price)] *)
  _update_offer_fee_and_calculate_final_price : t → Q → Q → Q → Q → Q * Q;
  (** [gsy_e.constants.FLOATING_POINT_TOLERANCE] *)
  FLOATING_POINT_TOLERANCE : Q
}.

(** The identifiers the market has handed out or stored. *)
Definition known_ids (m : t) : gset string :=
  dom (offers m) ∪ list_to_set (Offer.id <$> offer_history m)
                 ∪ list_to_set (BalancingTrade.id <$> trades m).

(** Modelled from the spec: [_notify_listeners] of the base class
    [Market] (section 6, notification sink: delivery is synchronous and
    in emission order).  The emitted event is appended to the log. *)
Definition _notify_listeners (ev : MarketEvent) : M t unit :=
  modify (set_notifications (λ l, l ++ [ev])).

(** Modelled from the spec: [_calculate_original_prices] of the parent
    class, the price of the offer before any fee adjustment. *)
Definition _calculate_original_prices (o : Offer.t) : Q := Offer.original_price o.

Section Methods.
Variable env : MarketEnv.

(** [BalancingMarket.offer]: the body is [assert False]. *)
Definition offer (price energy : Q) (seller seller_origin : string)
    (offer_id : option string) (original_price : option Q)
    (dispatch_event adapt_price_with_fees add_to_history : bool)
    (seller_origin_id seller_id attributes requirements : option string)
    (time_slot : option Z) : M t Offer.t :=
  py_assert false ;;;
  raise AssertionError.

(** [BalancingMarket.balancing_offer].  The argument [original_price]
    is accepted and never read, as in the source. *)
Definition balancing_offer (price energy : Q) (seller : string)
    (original_price : option Q) (offer_id : option string)
    (from_agent adapt_price_with_fees dispatch_event : bool)
    (seller_origin attributes requirements : option string) : M t Offer.t :=
  self <- get ;;
  if negb (bool_decide (seller ∈ REGISTRY env)) && negb from_agent
  then raise DeviceNotInRegistryError
  else if readonly self then raise MarketReadOnlyException
  else if Qeq_bool energy 0 then raise InvalidOffer
  else
    let price :=
      if adapt_price_with_fees
      then if _is_constant_fees self
           then (price + grid_fee_rate self * energy)%Q
           else (price * (1 + grid_fee_rate self))%Q
      else price in
    let offer_id :=
      match offer_id with
      | None => uuid4 env (known_ids self)
      | Some i => i
      end in
    let offer := Offer.BalancingOffer offer_id (now self) price energy seller
                   seller_origin attributes requirements (time_slot self) in
    modify (set_offers (insert (Offer.id offer) offer)) ;;;
    modify (set_offer_history (λ h, h ++ [offer])) ;;;
    (if dispatch_event then _notify_listeners (BALANCING_OFFER offer) else ret tt) ;;;
    ret offer.

(** [BalancingMarket.split_offer].  [bc_interface.change_offer] is the
    settlement hook, which does nothing without a ledger. *)
Definition split_offer (original_offer : Offer.t) (energy : Q)
    (orig_offer_price : option Q) : M t (Offer.t * Offer.t) :=
  modify (set_offers (delete (Offer.id original_offer))) ;;;
  portion <- lift (py_div energy (Offer.energy original_offer)) ;;
  accepted_offer <-
    balancing_offer (Offer.price original_offer * portion)%Q energy
      (Offer.seller original_offer) None (Some (Offer.id original_offer))
      true false false
      (Offer.seller_origin original_offer)
      (Offer.attributes original_offer) (Offer.requirements original_offer) ;;
  portion <- lift (py_div energy (Offer.energy original_offer)) ;;
  let residual_price := ((1 - portion) * Offer.price original_offer)%Q in
  let residual_energy := (Offer.energy original_offer - energy)%Q in
  let orig_offer_price :=
    match orig_offer_price with
    | None => _calculate_original_prices original_offer
    | Some p => p
    end in
  share <- lift (py_div (Offer.energy original_offer - energy)%Q
                        (Offer.energy original_offer)) ;;
  let original_residual_price := (share * orig_offer_price)%Q in
  residual_offer <-
    balancing_offer residual_price residual_energy
      (Offer.seller original_offer) (Some original_residual_price) None
      true false false
      (Offer.seller_origin original_offer)
      (Offer.attributes original_offer) (Offer.requirements original_offer) ;;
  _notify_listeners
    (BALANCING_OFFER_SPLIT original_offer accepted_offer residual_offer) ;;;
  ret (accepted_offer, residual_offer).

(** [BalancingMarket.determine_offer_price]. *)
Definition determine_offer_price (energy_portion energy trade_rate : Q)
    (trade_bid_info : option string) (orig_offer_price : Q) : M t (Q * Q) :=
  self <- get ;;
  ret (_update_offer_fee_and_calculate_final_price env self
         energy trade_rate energy_portion orig_offer_price).

(** [(offer.energy > 0 > energy) or (offer.energy < 0 < energy)]: each
    chain is a conjunction evaluated left to right, so [energy] is
    compared only when the first comparison of its chain holds. *)
Definition sign_mismatch (offer_energy : Q) (energy : option Q) : exn + bool :=
  match (if Qltb 0 offer_energy then py_gt_opt 0 energy else inr false) with
  | inl e => inl e
  | inr true => inr true
  | inr false =>
      if Qltb offer_energy 0 then py_lt_opt 0 energy else inr false
  end.

(** [fees, trade_price = v]: unpacking succeeds on a pair and raises
    [TypeError] on a number. *)
Definition py_unpack_pair (v : Q * Q + Q) : exn + Q * Q :=
  match v with
  | inl p => inr p
  | inr _ => inl TypeError
  end.

(** [BalancingMarket._update_accumulated_trade_price_energy]. *)
Definition _update_accumulated_trade_price_energy (trade : BalancingTrade.t)
    : M t unit :=
  let o := BalancingTrade.offer_bid trade in
  modify (λ self,
    if Qltb 0 (Offer.energy o) then
      set_accumulated
        (accumulated_supply_balancing_trade_price self + Offer.price o)%Q
        (accumulated_supply_balancing_trade_energy self + Offer.energy o)%Q
        (accumulated_demand_balancing_trade_price self)
        (accumulated_demand_balancing_trade_energy self) self
    else if Qltb (Offer.energy o) 0 then
      set_accumulated
        (accumulated_supply_balancing_trade_price self)
        (accumulated_supply_balancing_trade_energy self)
        (accumulated_demand_balancing_trade_price self + Offer.price o)%Q
        (accumulated_demand_balancing_trade_energy self + Qabs (Offer.energy o))%Q
        self
    else self).

(** [add_or_create_key] and [subtract_or_create_key] on [traded_energy]. *)
Definition add_or_create_key (d : gmap string Q) (k : string) (v : Q)
    : gmap string Q :=
  <[k := (default 0%Q (d !! k) + v)%Q]> d.

(** Modelled from the spec: [_update_stats_after_trade] of the parent
    class (section 3, Market: the trade is appended to the
    chronological list of trades, [traded_energy] gains the energy for
    the seller and loses it for the buyer, and the accumulated
    price and energy are updated). *)
Definition _update_stats_after_trade (trade : BalancingTrade.t)
    (order : Offer.t) : M t unit :=
  modify (set_trades (λ l, l ++ [trade])) ;;;
  _update_accumulated_trade_price_energy trade ;;;
  modify (set_traded_energy (λ d,
    add_or_create_key d (BalancingTrade.seller trade) (Offer.energy order))) ;;;
  modify (set_traded_energy (λ d,
    add_or_create_key d (BalancingTrade.buyer trade) (- Offer.energy order)%Q)).

(** Modelled from the spec: [bc_interface.handle_blockchain_trade_event]
    (section 6, settlement hook: the default implementation generates
    a local unique id and passes the residual through unchanged). *)
Definition handle_blockchain_trade_event (offer : Offer.t) (buyer : string)
    (original_offer : Offer.t) (residual_offer : option Offer.t)
    : M t (string * option Offer.t) :=
  self <- get ;;
  ret (uuid4 env (known_ids self), residual_offer).

(** The body of the [try] block of [accept_offer].  It returns the
    values that the statements after the block read: [offer],
    [residual_offer], [fees]. *)
Definition accept_offer_try (offer : Offer.t) (energy : Q)
    (already_tracked : bool) (trade_rate : Q) (trade_bid_info : option string)
    (orig_offer_price : Q) : M t (Offer.t * option Offer.t * Q) :=
  if Qeq_bool energy 0 then raise InvalidBalancingTradeException
  else if Qltb (Qabs energy) (Qabs (Offer.energy offer)) then
    (* partial energy is requested *)
    rate <- lift (Offer.energy_rate offer) ;;
    py_assert (Qle_bool rate (trade_rate + FLOATING_POINT_TOLERANCE env)%Q) ;;;
    split <- split_offer offer energy (Some orig_offer_price) ;;
    let accepted_offer := fst split in
    let residual_offer := snd split in
    portion <- lift (py_div energy (Offer.energy offer)) ;;
    price <- determine_offer_price portion energy trade_rate trade_bid_info
               orig_offer_price ;;
    let fees := fst price in
    let trade_price := snd price in
    let offer := Offer.update_price accepted_offer trade_price in
    ret (offer, Some residual_offer, fees)
  else if Qltb (Qabs (Offer.energy offer)) (Qabs energy) then
    raise InvalidBalancingTradeException
  else
    (* Requested energy is equal to offer's energy *)
    self <- get ;;
    price <- lift (py_unpack_pair
               (if negb already_tracked
                then inl (_update_offer_fee_and_calculate_final_price env self
                            energy trade_rate 1 orig_offer_price)
                else inr (energy * trade_rate)%Q)) ;;
    let fees := fst price in
    let trade_price := snd price in
    let offer := Offer.update_price offer trade_price in
    ret (offer, None, fees).

(** [BalancingMarket.accept_offer].  [offer_or_id] is an id or an offer
    object.  Inside the [try] block nothing raises once the local
    variable [offer] has been rebound to the accepted fragment, so the
    handler restores the offer that was taken from the book. *)
Definition accept_offer (offer_or_id : string + Offer.t) (buyer : string)
    (energy : option Q) (already_tracked : bool) (trade_rate : option Q)
    (trade_bid_info : option string)
    (buyer_origin buyer_origin_id buyer_id : option string)
    : M t BalancingTrade.t :=
  self <- get ;;
  if readonly self then raise MarketReadOnlyException
  else
    let offer_or_id :=
      match offer_or_id with
      | inr o => Offer.id o
      | inl i => i
      end in
    match offers self !! offer_or_id with
    | None => raise OfferNotFoundException
    | Some offer =>
      modify (set_offers (delete offer_or_id)) ;;;
      mismatch <- lift (sign_mismatch (Offer.energy offer) energy) ;;
      if (mismatch : bool) then raise InvalidBalancingTradeException
      else
        let energy :=
          match energy with
          | None => Offer.energy offer
          | Some e => e
          end in
        let original_offer := offer in
        trade_rate <-
          match trade_rate with
          | None => lift (Offer.energy_rate offer)
          | Some r => ret r
          end ;;
        let orig_offer_price := _calculate_original_prices offer in
        r <- try_except
               (accept_offer_try offer energy already_tracked trade_rate
                  trade_bid_info orig_offer_price)
               (λ e,
                  (* Exception happened - restore offer *)
                  modify (set_offers (insert (Offer.id offer) offer)) ;;;
                  raise e) ;;
        let offer := fst (fst r) in
        let residual_offer := snd (fst r) in
        let fees := snd r in
        (* Delete the accepted offer from self.offers *)
        modify (set_offers (delete (Offer.id offer))) ;;;
        h <- handle_blockchain_trade_event offer buyer original_offer
               residual_offer ;;
        let trade_id := fst h in
        let residual_offer := snd h in
        self <- get ;;
        let trade :=
          BalancingTrade.mk trade_id (now self) offer (Offer.seller offer) buyer
            residual_offer (Offer.seller_origin offer) buyer_origin fees
            (Offer.seller_origin_id offer) (Offer.seller_id offer)
            buyer_origin_id buyer_id (Offer.time_slot offer) None in
        (if negb already_tracked
         then _update_stats_after_trade trade offer
         else ret tt) ;;;
        _notify_listeners (BALANCING_TRADE trade) ;;;
        ret trade
    end.

(** [BalancingMarket.delete_balancing_offer].
    [_update_min_max_avg_offer_prices] refreshes cached statistics of
    the parent class, which are not part of the model. *)
Definition delete_balancing_offer (offer_or_id : string + Offer.t) : M t unit :=
  self <- get ;;
  if readonly self then raise MarketReadOnlyException
  else
    let offer_or_id :=
      match offer_or_id with
      | inr o => Offer.id o
      | inl i => i
      end in
    modify (set_offers (delete offer_or_id)) ;;;
    match offers self !! offer_or_id with
    | None => raise OfferNotFoundException
    | Some offer => _notify_listeners (BALANCING_OFFER_DELETED offer)
    end.

End Methods.
End BalancingMarket.

(** ** The forwarding engine *)

Module IAAEngine.

(** [OfferInfo = namedtuple('OfferInfo', ('source_offer', 'target_offer'))] *)
Record OfferInfo : Type := mkOfferInfo {
  source_offer : Offer.t;
  target_offer : Offer.t
}.

(** The attributes of an [IAAEngine] that its methods read or write. *)
Record t : Type := mk {
  name : string;
  min_offer_age : Z;
  offer_age : gmap string Z;
  forwarded_offers : gmap string OfferInfo
}.

Definition set_offer_age (f : gmap string Z → gmap string Z) (e : t) : t :=
  mk (name e) (min_offer_age e) (f (offer_age e)) (forwarded_offers e).

Definition set_forwarded_offers
    (f : gmap string OfferInfo → gmap string OfferInfo) (e : t) : t :=
  mk (name e) (min_offer_age e) (offer_age e) (f (forwarded_offers e)).

(** The engine with the two markets of [self.markets]: the objects a
    method of the engine can change. *)
Record World : Type := mkWorld {
  engine : t;
  source : BalancingMarket.t;
  target : BalancingMarket.t
}.

Definition set_engine (f : t → t) (w : World) : World :=
  mkWorld (f (engine w)) (source w) (target w).

(** Run a method of [self.markets.source] or of [self.markets.target]. *)
Definition on_source {A} (c : M BalancingMarket.t A) : M World A :=
  λ w, let r := c (source w) in (mkWorld (engine w) (fst r) (target w), snd r).

Definition on_target {A} (c : M BalancingMarket.t A) : M World A :=
  λ w, let r := c (target w) in (mkWorld (engine w) (source w) (fst r), snd r).

(** The market that [owner._get_market_from_market_id] returns. *)
Inductive market_ref : Type := SourceMarket | TargetMarket | OtherMarket.

(** The collaborators of the engine: the owning agent ([self.owner]),
    the fee classes of the two markets and the settings.  Their code is
    outside the two embedded files, so they are arguments. *)
Record Owner : Type := mkOwner {
  owner_name : string;
  owner_uuid : string;
  usable_offer : World → Offer.t → bool;
  (** [owner.post_offer(market=target, replace_existing=False, price,
      energy, seller, original_price, dispatch_event, seller_origin,
      seller_origin_id, seller_id)] *)
  post_offer : Q → Q → string → Q → bool → option string → option string →
               option string → M World Offer.t;
  (** [owner.accept_offer(market=source, offer, energy, buyer, trade_rate,
      trade_bid_info, buyer_origin, buyer_origin_id, buyer_id)] *)
  accept_offer : Offer.t → Q → string → option Q → option string →
                 option string → option string → option string →
                 M World BalancingTrade.t;
  (** [owner.delete_offer(target, offer)] *)
  delete_offer : Offer.t → M World unit;
  _get_market_from_market_id : World → string → option market_ref;
  (** [target.fee_class.update_forwarded_offer_with_fee] *)
  update_forwarded_offer_with_fee : Q → Q → Q;
  (** [source.fee_class.update_forwarded_offer_trade_original_info] *)
  update_forwarded_offer_trade_original_info :
    option string → Offer.t → option string;
  (** [target.dispatch_market_offer_event] *)
  dispatch_market_offer_event : Offer.t → M World unit;
  (** [ConstSettings.IAASettings.MARKET_TYPE == SpotMarketTypeEnum.ONE_SIDED.value] *)
  MARKET_TYPE_is_ONE_SIDED : bool;
  (** [gsy_e.constants.FLOATING_POINT_TOLERANCE] *)
  FLOATING_POINT_TOLERANCE : Q;
  (** the surroundings of the two markets *)
  source_env : BalancingMarket.MarketEnv;
  target_env : BalancingMarket.MarketEnv
}.

Section Methods.
Variable owner : Owner.

(** [IAAEngine._add_to_forward_offers]; [Offer.copy] is the identity on
    values. *)
Definition _add_to_forward_offers (source_offer target_offer : Offer.t)
    : M World unit :=
  let offer_info := mkOfferInfo source_offer target_offer in
  modify (set_engine (set_forwarded_offers
            (insert (Offer.id source_offer) offer_info))) ;;;
  modify (set_engine (set_forwarded_offers
            (insert (Offer.id target_offer) offer_info))).

(** [IAAEngine._delete_forwarded_offer_entries]. *)
Definition _delete_forwarded_offer_entries (offer : Offer.t) : M World unit :=
  w <- get ;;
  modify (set_engine (set_forwarded_offers (delete (Offer.id offer)))) ;;;
  match forwarded_offers (engine w) !! Offer.id offer with
  | None => ret tt
  | Some offer_info =>
      modify (set_engine (set_forwarded_offers
                (delete (Offer.id (target_offer offer_info))))) ;;;
      modify (set_engine (set_forwarded_offers
                (delete (Offer.id (source_offer offer_info)))))
  end.

(** [IAAEngine._offer_in_market]. *)
Definition _offer_in_market (offer : Offer.t) : M World Offer.t :=
  rate <- lift (Offer.energy_rate offer) ;;
  original_rate <- lift (py_div (Offer.original_price offer) (Offer.energy offer)) ;;
  let updated_price :=
    (update_forwarded_offer_with_fee owner rate original_rate
     * Offer.energy offer)%Q in
  post_offer owner updated_price (Offer.energy offer) (owner_name owner)
    (Offer.original_price offer) false (Offer.seller_origin offer)
    (Offer.seller_origin_id offer) (Some (owner_uuid owner)).

(** [IAAEngine._forward_offer]. *)
Definition _forward_offer (offer : Offer.t) : M World (option Offer.t) :=
  if Qltb (Offer.price offer) 0 then ret None
  else
    r <- try_except
           (forwarded_offer <- _offer_in_market offer ;; ret (Some forwarded_offer))
           (λ e, if is_MarketException e then ret None else raise e) ;;
    match r with
    | None => ret None
    | Some forwarded_offer =>
        _add_to_forward_offers offer forwarded_offer ;;;
        dispatch_market_offer_event owner forwarded_offer ;;;
        ret (Some forwarded_offer)
    end.

(** One iteration of the second loop of [propagate_offer], for the
    entry [(offer_id, age)] of the snapshot [list(self.offer_age.items())].
    [forward] is the method [self._forward_offer], which
    [BalancingEngine] overrides. *)
Definition propagate_entry (forward : Offer.t → M World (option Offer.t))
    (current_tick : Z) (entry : string * Z) : M World unit :=
  let offer_id := fst entry in
  let age := snd entry in
  w <- get ;;
  if bool_decide (is_Some (forwarded_offers (engine w) !! offer_id)) then ret tt
  else if bool_decide (current_tick - age < min_offer_age (engine w))%Z then ret tt
  else
    match BalancingMarket.offers (source w) !! offer_id with
    | None =>
        (* Offer has gone - remove from age dict *)
        modify (set_engine (set_offer_age (delete offer_id)))
    | Some offer =>
        if negb (usable_offer owner w offer) then
          (* Forbidden offer (i.e. our counterpart's) *)
          modify (set_engine (set_offer_age (delete offer_id)))
        else if String.eqb (owner_name owner) (Offer.seller offer) then
          (* Should never reach this point. *)
          modify (set_engine (set_offer_age (delete offer_id)))
        else
          forward offer ;;;
          ret tt
    end.

(** [IAAEngine.propagate_offer], for a given [_forward_offer].  The
    dicts are traversed in the order of [map_to_list]. *)
Definition propagate_offer_with (forward : Offer.t → M World (option Offer.t))
    (current_tick : Z) : M World unit :=
  w <- get ;;
  (* Store age of offer *)
  for_each (map_to_list (BalancingMarket.offers (source w))) (λ kv,
    let offer := snd kv in
    w <- get ;;
    if bool_decide (is_Some (offer_age (engine w) !! Offer.id offer)) then ret tt
    else modify (set_engine (set_offer_age (insert (Offer.id offer) current_tick)))) ;;;
  w <- get ;;
  for_each (map_to_list (offer_age (engine w)))
    (propagate_entry forward current_tick).

Definition propagate_offer (current_tick : Z) : M World unit :=
  propagate_offer_with _forward_offer current_tick.

(** [IAAEngine.tick]. *)
Definition tick (current_tick : Z) : M World unit :=
  propagate_offer current_tick.

(** [IAAEngine.event_offer_traded]. *)
Definition event_offer_traded (trade : BalancingTrade.t) : M World unit :=
  w <- get ;;
  let offer_bid := BalancingTrade.offer_bid trade in
  match forwarded_offers (engine w) !! Offer.id offer_bid with
  | None =>
      (* Trade doesn't concern us *)
      ret tt
  | Some offer_info =>
      (if String.eqb (Offer.id offer_bid) (Offer.id (target_offer offer_info)) then
         (* Offer was accepted in target market - buy in source *)
         source_rate <- lift (Offer.energy_rate (source_offer offer_info)) ;;
         target_rate <- lift (Offer.energy_rate (target_offer offer_info)) ;;
         py_assert (Qle_bool (Qabs source_rate)
                      (Qabs target_rate + FLOATING_POINT_TOLERANCE owner)%Q) ;;;
         try_except
           (trade_offer_rate <-
              (if MARKET_TYPE_is_ONE_SIDED owner then
                 (* One sided market should subtract the fees *)
                 rate <- lift (Offer.energy_rate offer_bid) ;;
                 fee_rate <- lift (py_div (BalancingTrade.fee_price trade)
                                           (Offer.energy offer_bid)) ;;
                 ret (Some (rate - fee_rate)%Q)
               else ret None) ;;
            let updated_trade_bid_info :=
              update_forwarded_offer_trade_original_info owner
                (BalancingTrade.offer_bid_trade_info trade)
                (source_offer offer_info) in
            accept_offer owner (source_offer offer_info) (Offer.energy offer_bid)
              (owner_name owner) trade_offer_rate updated_trade_bid_info
              (BalancingTrade.buyer_origin trade)
              (BalancingTrade.buyer_origin_id trade)
              (Some (owner_uuid owner)) ;;;
            ret tt)
           (λ e, match e with
                 | OfferNotFoundException => raise OfferNotFoundException
                 | _ => raise e
                 end) ;;;
         _delete_forwarded_offer_entries (source_offer offer_info) ;;;
         modify (set_engine (set_offer_age
                   (delete (Offer.id (source_offer offer_info)))))
       else if String.eqb (Offer.id offer_bid)
                          (Offer.id (source_offer offer_info)) then
         (* Offer was bought in source market by another party *)
         try_except
           (delete_offer owner (target_offer offer_info))
           (λ e, match e with
                 | OfferNotFoundException => ret tt
                 | _ => if is_MarketException e then ret tt else raise e
                 end) ;;;
         _delete_forwarded_offer_entries (source_offer offer_info) ;;;
         modify (set_engine (set_offer_age
                   (delete (Offer.id (source_offer offer_info)))))
       else raise RuntimeError) ;;;
      w <- get ;;
      py_assert (negb (bool_decide (is_Some
        (forwarded_offers (engine w) !! Offer.id (source_offer offer_info))))) ;;;
      py_assert (negb (bool_decide (is_Some
        (forwarded_offers (engine w) !! Offer.id (target_offer offer_info)))))
  end.

(** [IAAEngine.event_offer_deleted]. *)
Definition event_offer_deleted (offer : Offer.t) : M World unit :=
  (* Offer we're watching in source market was deleted - remove *)
  modify (set_engine (set_offer_age (delete (Offer.id offer)))) ;;;
  w <- get ;;
  match forwarded_offers (engine w) !! Offer.id offer with
  | None =>
      (* Deletion doesn't concern us *)
      ret tt
  | Some offer_info =>
      if String.eqb (Offer.id (source_offer offer_info)) (Offer.id offer) then
        try_except
          (delete_offer owner (target_offer offer_info) ;;;
           _delete_forwarded_offer_entries (source_offer offer_info))
          (λ e, if is_MarketException e then ret tt else raise e)
      else ret tt
  end.

(** [self.forwarded_offers[k]]: subscripting raises [KeyError]. *)
Definition forwarded_offers_getitem (k : string) : M World OfferInfo :=
  w <- get ;;
  match forwarded_offers (engine w) !! k with
  | None => raise KeyError
  | Some offer_info => ret offer_info
  end.

(** [IAAEngine.event_offer_split]. *)
Definition event_offer_split (market_id : string)
    (original_offer accepted_offer residual_offer : Offer.t) : M World unit :=
  w <- get ;;
  match _get_market_from_market_id owner w market_id with
  | None => ret tt
  | Some market =>
      let tracked :=
        bool_decide (is_Some
          (forwarded_offers (engine w) !! Offer.id accepted_offer)) in
      match market, tracked with
      | TargetMarket, true =>
          (* offer was split in target market, also split in source market *)
          offer_info <- forwarded_offers_getitem (Offer.id original_offer) ;;
          let local_offer := source_offer offer_info in
          let original_price := Offer.original_price local_offer in
          split <- on_source
                     (BalancingMarket.split_offer (source_env owner) local_offer
                        (Offer.energy accepted_offer) (Some original_price)) ;;
          let local_split_offer := fst split in
          let local_residual_offer := snd split in
          (* add the new offers to forwarded_offers *)
          _add_to_forward_offers local_residual_offer residual_offer ;;;
          _add_to_forward_offers local_split_offer accepted_offer ;;;
          modify (set_engine (set_offer_age (λ ages,
            match ages !! Offer.id original_offer with
            | None => ages
            | Some age =>
                <[Offer.id residual_offer := age]>
                  (delete (Offer.id original_offer) ages)
            end)))
      | SourceMarket, true =>
          (* offer was split in source market, also split in target market *)
          if negb (usable_offer owner w accepted_offer)
             || String.eqb (owner_name owner) (Offer.seller accepted_offer)
          then ret tt
          else
            offer_info <- forwarded_offers_getitem (Offer.id original_offer) ;;
            let local_offer := source_offer offer_info in
            let original_price := Offer.original_price local_offer in
            split <- on_target
                       (BalancingMarket.split_offer (target_env owner) local_offer
                          (Offer.energy accepted_offer) (Some original_price)) ;;
            let local_split_offer := fst split in
            let local_residual_offer := snd split in
            (* add the new offers to forwarded_offers *)
            _add_to_forward_offers residual_offer local_residual_offer ;;;
            _add_to_forward_offers accepted_offer local_split_offer ;;;
            modify (set_engine (set_offer_age (λ ages,
              match ages !! Offer.id original_offer with
              | None => ages
              | Some age =>
                  <[Offer.id residual_offer := age]>
                    (delete (Offer.id original_offer) ages)
              end)))
      | _, _ => ret tt
      end
  end.

End Methods.
End IAAEngine.

(** [BalancingEngine(IAAEngine)]: only [_forward_offer] is overridden. *)
Module BalancingEngine.
Import IAAEngine.

Section Methods.
Variable owner : Owner.

(** [BalancingEngine._forward_offer]: the call is
    [balancing_offer(offer.price, offer.energy, owner.name,
    from_agent=True)], the other arguments keep their defaults. *)
Definition _forward_offer (offer : Offer.t) : M World (option Offer.t) :=
  forwarded_balancing_offer <-
    on_target (BalancingMarket.balancing_offer (target_env owner)
                 (Offer.price offer) (Offer.energy offer) (owner_name owner)
                 None None true false true None None None) ;;
  _add_to_forward_offers offer forwarded_balancing_offer ;;;
  ret (Some forwarded_balancing_offer).

Definition propagate_offer (current_tick : Z) : M World unit :=
  propagate_offer_with owner _forward_offer current_tick.

End Methods.
End BalancingEngine.

(** ** Concrete markets, agents and engines for the examples *)

Module Demo.
Import BalancingMarket IAAEngine.

(** A fee policy in the style of the one-sided market: the fee is the
    grid fee on the energy (constant fees) or on the apportioned original
    price, the trade price is [energy * trade_rate]. *)
Definition fee_policy (self : BalancingMarket.t)
    (energy trade_rate energy_portion original_price : Q) : Q * Q :=
  (if _is_constant_fees self
   then grid_fee_rate self * energy
   else grid_fee_rate self * original_price * energy_portion,
   energy * trade_rate)%Q.

Definition env (prefix : string) : MarketEnv :=
  mkEnv {["A"; "seller"]} (fresh_string_of_set prefix) fee_policy (1 # 100000).

Definition empty_market : BalancingMarket.t :=
  BalancingMarket.mk false 0 0 false 0 ∅ [] [] ∅ [] 0 0 0 0.

(** The offer of the first scenario of section 8 of the specification:
    price 20, energy 10, seller "A". *)
Definition offer_A : Offer.t :=
  Offer.BalancingOffer "o1" 0 20 10 "A" None None None 0.

Definition market_A : BalancingMarket.t :=
  BalancingMarket.mk false 0 0 false 0 {["o1" := offer_A]} [offer_A] [] ∅
    [BALANCING_OFFER offer_A] 0 0 0 0.

(** A balancing agent: it buys in the source market, and deletes and
    posts in the target market, with the methods of [BalancingMarket].
    [fee] is [update_forwarded_offer_with_fee] of the target market. *)
Definition agent (usable : World → Offer.t → bool) (fee : Q → Q → Q) : Owner :=
  mkOwner "IAA" "iaa-uuid" usable
    (λ price energy seller original_price dispatch_event
       seller_origin seller_origin_id seller_id,
       on_target (balancing_offer (env "t") price energy seller
                    (Some original_price) None true false dispatch_event
                    seller_origin None None))
    (λ offer energy buyer trade_rate trade_bid_info
       buyer_origin buyer_origin_id buyer_id,
       on_source (BalancingMarket.accept_offer (env "s") (inr offer) buyer
                    (Some energy) false trade_rate trade_bid_info
                    buyer_origin buyer_origin_id buyer_id))
    (λ offer, on_target (delete_balancing_offer (inr offer)))
    (λ _ market_id,
       if String.eqb market_id "source" then Some SourceMarket
       else if String.eqb market_id "target" then Some TargetMarket
       else if String.eqb market_id "other" then Some OtherMarket
       else None)
    fee
    (λ info _, info)
    (λ offer, on_target (_notify_listeners (BALANCING_OFFER offer)))
    true (1 # 100000) (env "s") (env "t").

(** The agent without grid fee. *)
Definition owner : Owner := agent (λ _ _, true) (λ rate original_rate, rate).

Definition market_of (offers : list Offer.t) : BalancingMarket.t :=
  BalancingMarket.mk false 0 0 false 0
    (list_to_map ((λ o, (Offer.id o, o)) <$> offers)) offers [] ∅ [] 0 0 0 0.

(** A source offer "s1" of seller "A" and its mirror "t1", posted in the
    target market by the agent "IAA". *)
Definition S1 : Offer.t := Offer.BalancingOffer "s1" 0 20 10 "A" None None None 0.
Definition T1 : Offer.t := Offer.BalancingOffer "t1" 0 20 10 "IAA" None None None 0.

Definition tracking_engine : IAAEngine.t :=
  IAAEngine.mk "engine" 2 {["s1" := 0%Z]}
    {["s1" := mkOfferInfo S1 T1; "t1" := mkOfferInfo S1 T1]}.

(** A trade of the whole offer [o], bought by "B". *)
Definition trade_of (o : Offer.t) : BalancingTrade.t :=
  BalancingTrade.mk "trade1" 0 o (Offer.seller o) "B" None None None 0
    None None None None 0 None.

(** The mirror "t1" was bought in the target market after the source
    offer "s1" had left the source market. *)
Definition world_source_gone : World :=
  mkWorld tracking_engine (market_of []) (market_of [T1]).

(** Both the source offer "s1" and its mirror "t1" have left their
    markets; the engine still tracks them. *)
Definition world_both_gone : World :=
  mkWorld tracking_engine (market_of []) (market_of []).

(** An offer of the agent's own name in its source market, first seen
    at tick 0. *)
Definition own_offer : Offer.t :=
  Offer.BalancingOffer "o1" 0 20 10 "IAA" None None None 0.

Definition world_own_offer : World :=
  mkWorld (IAAEngine.mk "engine" 2 {["o1" := 0%Z]} ∅)
    (market_of [own_offer]) empty_market.





(** The mirror "t1" was bought in the target market; the source offer
    "s1" is still in the source market. *)
Definition world_mirror_bought : World :=
  mkWorld tracking_engine (market_of [S1]) (market_of []).

(** Both the source offer "s1" and its mirror "t1" are in their
    markets. *)
Definition world_both_live : World :=
  mkWorld tracking_engine (market_of [S1]) (market_of [T1]).

(** The target market splits the mirror "t1" at the energy 4 (a partial
    purchase in the target market), and notifies the engine. *)
Definition target_split : BalancingMarket.t * (exn + Offer.t * Offer.t) :=
  split_offer (env "t") T1 4 None (market_of [T1]).

Definition accepted_mirror : Offer.t :=
  match snd target_split with inr (a, _) => a | inl _ => T1 end.

Definition residual_mirror : Offer.t :=
  match snd target_split with inr (_, r) => r | inl _ => T1 end.

Definition world_target_split : World :=
  mkWorld tracking_engine (market_of [S1]) (fst target_split).

(** A mirror of "s1" at half its rate, and an engine that tracks the
    pair: the state that the rate assertion of [event_offer_traded]
    guards against.  The mirror was bought in the target market. *)
Definition T_half : Offer.t :=
  Offer.BalancingOffer "t1" 0 10 10 "IAA" None None None 0.

Definition world_half_rate : World :=
  mkWorld (IAAEngine.mk "engine" 2 {["s1" := 0%Z]}
             {["s1" := mkOfferInfo S1 T_half; "t1" := mkOfferInfo S1 T_half]})
    (market_of [S1]) (market_of []).

(** An offer of negative price. *)
Definition negative_offer : Offer.t :=
  Offer.BalancingOffer "n1" 0 (-5) 10 "A" None None None 0.

(** An engine that has not seen the offers of its source market yet. *)
Definition world_unseen : World :=
  mkWorld (IAAEngine.mk "engine" 2 ∅ ∅) (market_of [S1]) empty_market.

(** [market_A] after it was closed. *)
Definition closed_market_A : BalancingMarket.t :=
  BalancingMarket.mk true 0 0 false 0 {["o1" := offer_A]} [offer_A] [] ∅
    [BALANCING_OFFER offer_A] 0 0 0 0.

End Demo.

(** ** Vocabulary of the statements *)

(** The requested energy and the energy of the offer have opposite signs:
    the condition [(offer.energy > 0 > energy) or (offer.energy < 0 < energy)]
    of [accept_offer]. *)
Definition opposite_signs (E e : Q) : Prop :=
  (0 < E ∧ e < 0)%Q ∨ (E < 0 ∧ 0 < e)%Q.

(** The value of [trade_rate] after [if trade_rate is None: trade_rate =
    offer.energy_rate], for an offer with non-zero energy. *)
Definition rate_or_default (tr : option Q) (o : Offer.t) : Q :=
  match tr with
  | None => (Offer.price o / Offer.energy o)%Q
  | Some r => r
  end.

(** The pairing of [forwarded_offers]: every record is stored under the
    id of its source offer and under the id of its target offer, both
    keys resolve to that record, and it is stored under no other key. *)
Definition paired (fo : gmap string IAAEngine.OfferInfo) : Prop :=
  ∀ k info, fo !! k = Some info →
    (k = Offer.id (IAAEngine.source_offer info)
     ∨ k = Offer.id (IAAEngine.target_offer info))
    ∧ fo !! Offer.id (IAAEngine.source_offer info) = Some info
    ∧ fo !! Offer.id (IAAEngine.target_offer info) = Some info.

(** The records that the engines make.  [BalancingEngine._forward_offer]
    posts the mirror with the price and the energy of the source offer
    (first case).  [IAAEngine._forward_offer] forwards the offers of the
    spot markets, whose energy is positive: it skips an offer of
    negative price, and a mirror of negative price is rejected by the
    target market and not recorded (second case). *)
Definition recorded_by_forwarding (info : IAAEngine.OfferInfo) : Prop :=
  (Offer.price (IAAEngine.target_offer info)
     = Offer.price (IAAEngine.source_offer info)
   ∧ Offer.energy (IAAEngine.target_offer info)
     = Offer.energy (IAAEngine.source_offer info))
  ∨ ((0 <= Offer.price (IAAEngine.source_offer info))%Q
     ∧ (0 < Offer.energy (IAAEngine.source_offer info))%Q
     ∧ (0 <= Offer.price (IAAEngine.target_offer info))%Q
     ∧ (0 < Offer.energy (IAAEngine.target_offer info))%Q).

(** The settings of a market: the attributes that no method of
    [BalancingMarket] assigns. *)
Definition same_settings (m m' : BalancingMarket.t) : Prop :=
  BalancingMarket.readonly m' = BalancingMarket.readonly m
  ∧ BalancingMarket.now m' = BalancingMarket.now m
  ∧ BalancingMarket.time_slot m' = BalancingMarket.time_slot m
  ∧ BalancingMarket._is_constant_fees m' = BalancingMarket._is_constant_fees m
  ∧ BalancingMarket.grid_fee_rate m' = BalancingMarket.grid_fee_rate m.

(** A computation keeps the relation [R] between the state it starts in
    and the state it ends in, whether it returns or raises. *)
Definition preserves {S A} (R : S → S → Prop) (c : M S A) : Prop :=
  ∀ s, R s (fst (c s)).

(** * Properties *)

(** ** The monad *)

Lemma bind_inr {S A B} (c : M S A) (k : A → M S B) s s' a :
  c s = (s', inr a) → bind c k s = k a s'.
Proof. intros H. unfold bind. rewrite H. reflexivity. Qed.

Lemma bind_inl {S A B} (c : M S A) (k : A → M S B) s s' e :
  c s = (s', inl e) → bind c k s = (s', inl e).
Proof. intros H. unfold bind. rewrite H. reflexivity. Qed.

Lemma try_except_inr {S A} (c : M S A) h s s' a :
  c s = (s', inr a) → try_except c h s = (s', inr a).
Proof. intros H. unfold try_except. rewrite H. reflexivity. Qed.

Lemma try_except_inl {S A} (c : M S A) h s s' e :
  c s = (s', inl e) → try_except c h s = h e s'.
Proof. intros H. unfold try_except. rewrite H. reflexivity. Qed.


Lemma bind_modify {S B} (f : S → S) (k : unit → M S B) s :
  bind (modify f) k s = k tt (f s).
Proof. reflexivity. Qed.

Lemma bind_get {S B} (k : S → M S B) s : bind get k s = k s s.
Proof. reflexivity. Qed.

Lemma bind_ret {S A B} (a : A) (k : A → M S B) s : bind (ret a) k s = k a s.
Proof. reflexivity. Qed.

Lemma bind_lift_inr {S A B} (a : A) (k : A → M S B) s :
  bind (lift (inr a)) k s = k a s.
Proof. reflexivity. Qed.

Lemma bind_lift_inl {S A B} e (k : A → M S B) s :
  bind (lift (inl e)) k s = (s, inl e).
Proof. reflexivity. Qed.

Lemma bind_raise {S A B} e (k : A → M S B) s :
  bind (raise e) k s = (s, inl e).
Proof. reflexivity. Qed.

(** ** Comparisons on [Q] *)

Lemma Qltb_true x y : Qltb x y = true ↔ (x < y)%Q.
Proof.
  unfold Qltb. rewrite negb_true_iff. split.
  - intros H. apply Qnot_le_lt. intros Hle.
    apply Qle_bool_iff in Hle. congruence.
  - intros H. destruct (Qle_bool y x) eqn:E; [|reflexivity].
    apply Qle_bool_iff in E. exfalso. exact (Qlt_not_le _ _ H E).
Qed.

Lemma Qltb_false x y : Qltb x y = false ↔ (y <= x)%Q.
Proof.
  unfold Qltb. rewrite negb_false_iff. apply Qle_bool_iff.
Qed.

Lemma Qeq_bool_false x y : Qeq_bool x y = false ↔ ¬ (x == y)%Q.
Proof.
  split.
  - intros H Heq. apply Qeq_bool_iff in Heq. congruence.
  - intros H. destruct (Qeq_bool x y) eqn:E; [|reflexivity].
    apply Qeq_bool_iff in E. contradiction.
Qed.

Lemma py_div_ok x y : ¬ (y == 0)%Q → py_div x y = inr (x / y)%Q.
Proof. intros H. unfold py_div. apply Qeq_bool_false in H. rewrite H. reflexivity. Qed.


(** ** The balancing market *)

Section BalancingMarketFacts.
Import BalancingMarket.
Variable env : MarketEnv.

(** [balancing_offer] called by an agent, without notification. *)
Lemma balancing_offer_quiet price energy seller op oid so at_ rq (m : BalancingMarket.t) :
readonly m = false → ¬ (energy == 0)%Q →
let i := match oid with None => uuid4 env (known_ids m) | Some i => i end in
let o := Offer.BalancingOffer i (now m) price energy seller so at_ rq (time_slot m) in
balancing_offer env price energy seller op oid true false false so at_ rq m =
  (set_offer_history (λ h, h ++ [o]) (set_offers (insert i o) m), inr o).
Proof.
intros Hro He. cbn zeta.
unfold balancing_offer. unfold bind at 1. unfold get at 1. cbn beta iota.
rewrite andb_false_r, Hro. apply Qeq_bool_false in He. rewrite He.
reflexivity.
Qed.

Lemma split_offer_spec (o : Offer.t) (e : Q) (p : option Q) (m : BalancingMarket.t) :
readonly m = false →
¬ (Offer.energy o == 0)%Q → ¬ (e == 0)%Q → ¬ (Offer.energy o - e == 0)%Q →
∃ acc res m',
  split_offer env o e p m = (m', inr (acc, res))
  ∧ acc = Offer.BalancingOffer (Offer.id o) (now m)
            (Offer.price o * (e / Offer.energy o))%Q e (Offer.seller o)
            (Offer.seller_origin o) (Offer.attributes o) (Offer.requirements o)
            (time_slot m)
  ∧ res = Offer.BalancingOffer
            (uuid4 env (known_ids
               (set_offer_history (λ h, h ++ [acc])
                  (set_offers (insert (Offer.id o) acc)
                     (set_offers (delete (Offer.id o)) m)))))
            (now m)
            ((1 - e / Offer.energy o) * Offer.price o)%Q
            (Offer.energy o - e)%Q (Offer.seller o)
            (Offer.seller_origin o) (Offer.attributes o) (Offer.requirements o)
            (time_slot m)
  ∧ offers m' = <[Offer.id res := res]> (<[Offer.id o := acc]> (delete (Offer.id o) (offers m)))
  ∧ notifications m' = notifications m ++ [BALANCING_OFFER_SPLIT o acc res]
  ∧ offer_history m' = offer_history m ++ [acc; res]
  ∧ readonly m' = false ∧ now m' = now m ∧ time_slot m' = time_slot m
  ∧ trades m' = trades m ∧ traded_energy m' = traded_energy m.
Proof.
intros Hro HE He HEe.
eexists _, _, _. split.
- unfold split_offer.
  rewrite bind_modify, (py_div_ok _ _ HE), bind_lift_inr.
  erewrite bind_inr; [|apply balancing_offer_quiet; cbn; assumption].
  rewrite ?(py_div_ok _ _ HE), ?bind_lift_inr.
  erewrite bind_inr; [|apply balancing_offer_quiet; cbn; assumption].
  reflexivity.
- cbn. rewrite <- app_assoc. repeat split; try reflexivity. exact Hro.
Qed.

Lemma sign_mismatch_Some (E e : Q) :
  sign_mismatch E (Some e)
  = inr (Qltb 0 E && Qltb e 0 || Qltb E 0 && Qltb 0 e).
Proof.
  unfold sign_mismatch, py_gt_opt, py_lt_opt.
  destruct (Qltb 0 E), (Qltb e 0), (Qltb E 0), (Qltb 0 e); reflexivity.
Qed.

Lemma sign_mismatch_None (E : Q) :
  ¬ (E == 0)%Q → sign_mismatch E None = inl TypeError.
Proof.
  intros HE. unfold sign_mismatch, py_gt_opt, py_lt_opt.
  destruct (Qltb 0 E) eqn:H1; [reflexivity|].
  destruct (Qltb E 0) eqn:H2; [reflexivity|].
  apply Qltb_false in H1, H2. exfalso. apply HE. apply Qle_antisym; assumption.
Qed.

Lemma sign_mismatch_opposite (E e : Q) :
  opposite_signs E e → sign_mismatch E (Some e) = inr true.
Proof.
  intros [[H1 H2]|[H1 H2]]; rewrite sign_mismatch_Some;
    apply Qltb_true in H1, H2; rewrite H1, H2; [reflexivity|].
  f_equal. apply orb_true_r.
Qed.

Lemma sign_mismatch_compatible (E e : Q) :
  ¬ opposite_signs E e → sign_mismatch E (Some e) = inr false.
Proof.
  intros H. rewrite sign_mismatch_Some. f_equal.
  destruct (Qltb 0 E) eqn:H1, (Qltb e 0) eqn:H2,
           (Qltb E 0) eqn:H3, (Qltb 0 e) eqn:H4; try reflexivity;
    exfalso; apply H; unfold opposite_signs;
    rewrite <- !Qltb_true; rewrite ?H1, ?H2, ?H3, ?H4; tauto.
Qed.

(** The first statements of [accept_offer], up to the sign check. *)
Lemma accept_offer_sign_mismatch k o buyer energy at_ tr tbi bo boi bi
    (m : BalancingMarket.t) :
  readonly m = false → offers m !! k = Some o →
  sign_mismatch (Offer.energy o) energy = inr true →
  accept_offer env (inl k) buyer energy at_ tr tbi bo boi bi m
  = (set_offers (delete k) m, inl InvalidBalancingTradeException).
Proof.
  intros Hro Hk Hs. unfold accept_offer.
  rewrite bind_get, Hro, Hk, bind_modify, Hs, bind_lift_inr. reflexivity.
Qed.

Lemma accept_offer_energy_omitted k o buyer at_ tr tbi bo boi bi
    (m : BalancingMarket.t) :
  readonly m = false → offers m !! k = Some o → ¬ (Offer.energy o == 0)%Q →
  accept_offer env (inl k) buyer None at_ tr tbi bo boi bi m
  = (set_offers (delete k) m, inl TypeError).
Proof.
  intros Hro Hk HE. unfold accept_offer.
  rewrite bind_get, Hro, Hk, bind_modify, (sign_mismatch_None _ HE), bind_lift_inl.
  reflexivity.
Qed.

Lemma restore_offer k o (m : BalancingMarket.t) :
  offers m !! k = Some o →
  set_offers (insert k o) (set_offers (delete k) m) = m.
Proof.
  intros Hk. destruct m; cbn in *. unfold set_offers; cbn.
  rewrite insert_delete_eq, (insert_id _ _ _ Hk). reflexivity.
Qed.

Lemma bind_trade_rate {B} tr o (k : Q → M BalancingMarket.t B) m :
  ¬ (Offer.energy o == 0)%Q →
  bind (match tr with
        | None => lift (Offer.energy_rate o)
        | Some r => ret r
        end) k m = k (rate_or_default tr o) m.
Proof.
  intros HE. destruct tr; [reflexivity|].
  unfold Offer.energy_rate. rewrite (py_div_ok _ _ HE). reflexivity.
Qed.

(** The requested energy is zero or exceeds the offer: the [try] block
    raises, the handler puts the offer back. *)
Lemma accept_offer_invalid_energy k o buyer e at_ tr tbi bo boi bi
    (m : BalancingMarket.t) :
  readonly m = false → offers m !! k = Some o → Offer.id o = k →
  ¬ (Offer.energy o == 0)%Q →
  ¬ opposite_signs (Offer.energy o) e →
  (e == 0 ∨ Qabs (Offer.energy o) < Qabs e)%Q →
  accept_offer env (inl k) buyer (Some e) at_ tr tbi bo boi bi m
  = (m, inl InvalidBalancingTradeException).
Proof.
  intros Hro Hk Hid HE Hs He. unfold accept_offer.
  rewrite bind_get, Hro, Hk, bind_modify, (sign_mismatch_compatible _ _ Hs),
    bind_lift_inr, (bind_trade_rate _ _ _ _ HE).
  erewrite bind_inl; [reflexivity|].
  erewrite try_except_inl.
  - rewrite bind_modify, Hid. cbn. unfold raise.
    rewrite (restore_offer _ _ _ Hk). reflexivity.
  - unfold accept_offer_try.
    destruct (Qeq_bool e 0) eqn:E0; [reflexivity|].
    destruct He as [He|He]; [apply Qeq_bool_iff in He; congruence|].
    assert (Qltb (Qabs e) (Qabs (Offer.energy o)) = false) as ->.
    { apply Qltb_false. apply Qlt_le_weak. exact He. }
    apply Qltb_true in He. rewrite He. reflexivity.
Qed.

(** Full match on the [already_tracked] path: unpacking the product
    [energy * trade_rate] raises [TypeError]. *)
Lemma accept_offer_full_already_tracked k o buyer e tr tbi bo boi bi
    (m : BalancingMarket.t) :
  readonly m = false → offers m !! k = Some o → Offer.id o = k →
  ¬ (Offer.energy o == 0)%Q →
  ¬ opposite_signs (Offer.energy o) e → ¬ (e == 0)%Q →
  (Qabs e == Qabs (Offer.energy o))%Q →
  accept_offer env (inl k) buyer (Some e) true tr tbi bo boi bi m
  = (m, inl TypeError).
Proof.
  intros Hro Hk Hid HE Hs He Habs. unfold accept_offer.
  rewrite bind_get, Hro, Hk, bind_modify, (sign_mismatch_compatible _ _ Hs),
    bind_lift_inr, (bind_trade_rate _ _ _ _ HE).
  erewrite bind_inl; [reflexivity|].
  erewrite try_except_inl.
  - rewrite bind_modify, Hid. cbn. unfold raise.
    rewrite (restore_offer _ _ _ Hk). reflexivity.
  - unfold accept_offer_try.
    apply Qeq_bool_false in He. rewrite He.
    assert (Qltb (Qabs e) (Qabs (Offer.energy o)) = false) as ->.
    { apply Qltb_false. rewrite Habs. apply Qle_refl. }
    assert (Qltb (Qabs (Offer.energy o)) (Qabs e) = false) as ->.
    { apply Qltb_false. rewrite Habs. apply Qle_refl. }
    reflexivity.
Qed.

Lemma partial_energy_nonzero (E e : Q) :
  (Qabs e < Qabs E)%Q → ¬ (E == 0)%Q ∧ ¬ (E - e == 0)%Q.
Proof.
  intros H. split; intros H0.
  - rewrite H0 in H. pose proof (Qabs_nonneg e) as Hn.
    change (Qabs 0) with 0%Q in H. exact (Qlt_not_le _ _ H Hn).
  - assert (E == e)%Q as Heq by lra. rewrite Heq in H.
    exact (Qlt_irrefl _ H).
Qed.

Lemma _update_stats_after_trade_spec trade order (m : BalancingMarket.t) :
  ∃ m', _update_stats_after_trade trade order m = (m', inr tt)
        ∧ offers m' = offers m ∧ notifications m' = notifications m
        ∧ trades m' = trades m ++ [trade].
Proof.
  unfold _update_stats_after_trade, _update_accumulated_trade_price_energy.
  rewrite !bind_modify. eexists. split; [reflexivity|].
  cbn. destruct (Qltb 0 _); [cbn; auto|]. destruct (Qltb _ 0); cbn; auto.
Qed.

Hypothesis uuid4_fresh : ∀ X, uuid4 env X ∉ X.

Lemma accept_offer_partial k o buyer e at_ tr tbi bo boi bi
    (m : BalancingMarket.t) :
  readonly m = false → offers m !! k = Some o → Offer.id o = k →
  ¬ opposite_signs (Offer.energy o) e → ¬ (e == 0)%Q →
  (Qabs e < Qabs (Offer.energy o))%Q →
  (Offer.price o / Offer.energy o
     <= rate_or_default tr o + FLOATING_POINT_TOLERANCE env)%Q →
  ∃ m' trade acc res,
    accept_offer env (inl k) buyer (Some e) at_ tr tbi bo boi bi m
      = (m', inr trade)
    ∧ Offer.id (BalancingTrade.offer_bid trade) = Offer.id o
    ∧ Offer.energy (BalancingTrade.offer_bid trade) = e
    ∧ BalancingTrade.residual trade = Some res
    ∧ Offer.id acc = Offer.id o
    ∧ Offer.id res ≠ Offer.id o
    ∧ offers m !! Offer.id res = None
    ∧ offers m' = <[Offer.id res := res]> (delete k (offers m))
    ∧ notifications m'
      = notifications m ++ [BALANCING_OFFER_SPLIT o acc res; BALANCING_TRADE trade].
Proof.
  intros Hro Hk Hid Hs He Hlt Hrate.
  destruct (partial_energy_nonzero _ _ Hlt) as [HE HEe].
  assert (readonly (set_offers (delete k) m) = false) as Hro1 by exact Hro.
  destruct (split_offer_spec o e (Some (_calculate_original_prices o))
              (set_offers (delete k) m) Hro1 HE He HEe)
    as (acc & res & m2 & Hsplit & Hacc & Hres & Hoff & Hnot & _ & _ & _ & _ & _ & _).
  assert (Offer.id acc = Offer.id o) as Hacc_id by (rewrite Hacc; reflexivity).
  assert (Offer.id res ∉ dom (<[Offer.id o := acc]> (delete (Offer.id o)
                                (offers (set_offers (delete k) m))))) as Hfresh.
  { rewrite Hres. cbn [Offer.id Offer.BalancingOffer].
    intros Hin. eapply uuid4_fresh. unfold known_ids.
    apply elem_of_union_l, elem_of_union_l. exact Hin. }
  assert (Offer.id res ≠ Offer.id o) as Hne.
  { intros Heq. apply Hfresh. rewrite Heq. apply elem_of_dom.
    rewrite lookup_insert_eq. eauto. }
  assert (offers m !! Offer.id res = None) as Hnone.
  { apply not_elem_of_dom in Hfresh.
    rewrite lookup_insert_ne in Hfresh by congruence.
    rewrite lookup_delete_ne in Hfresh by congruence.
    cbn in Hfresh. rewrite lookup_delete_ne in Hfresh by congruence.
    exact Hfresh. }
  (* the try block *)
  assert (∃ fees price,
    accept_offer_try env o e at_ (rate_or_default tr o) tbi
      (_calculate_original_prices o) (set_offers (delete k) m)
    = (m2, inr (Offer.update_price acc price, Some res, fees))) as (fees & price & Htry).
  { eexists _, _. unfold accept_offer_try.
    apply Qeq_bool_false in He. rewrite He.
    apply Qltb_true in Hlt. rewrite Hlt.
    unfold Offer.energy_rate. rewrite (py_div_ok _ _ HE), bind_lift_inr.
    apply Qle_bool_iff in Hrate. rewrite Hrate.
    unfold py_assert. rewrite bind_ret.
    erewrite bind_inr; [|exact Hsplit]. cbn [fst snd].
    rewrite (py_div_ok _ _ HE), bind_lift_inr.
    erewrite bind_inr; [|reflexivity].
    reflexivity. }
  assert (delete (Offer.id acc) (offers m2)
          = <[Offer.id res := res]> (delete k (offers m))) as Hfinal.
  { rewrite Hoff, Hacc_id. cbn [offers set_offers]. rewrite Hid.
    rewrite delete_insert_ne by (rewrite <- Hid; congruence).
    rewrite delete_insert_eq, !delete_delete_eq. reflexivity. }
  remember (accept_offer env (inl k) buyer (Some e) at_ tr tbi bo boi bi m)
    as R eqn:HR.
  unfold accept_offer in HR.
  rewrite bind_get, Hro, Hk, bind_modify, (sign_mismatch_compatible _ _ Hs),
    bind_lift_inr, (bind_trade_rate _ _ _ _ HE) in HR.
  erewrite bind_inr in HR; [|apply try_except_inr; exact Htry].
  cbn [fst snd] in HR. rewrite bind_modify in HR.
  erewrite bind_inr in HR; [|reflexivity].
  cbn [fst snd] in HR. rewrite bind_get in HR.
  destruct at_; cbn [negb] in HR.
  - rewrite bind_ret in HR. unfold _notify_listeners in HR.
    rewrite bind_modify in HR. unfold ret in HR. subst R.
    eexists _, _, acc, res. split; [reflexivity|].
    cbn. rewrite Hnot, Hfinal. cbn. rewrite <- app_assoc.
    repeat split; try assumption; rewrite Hacc; reflexivity.
  - match type of HR with
    | _ = bind (_update_stats_after_trade ?T ?O) _ ?S =>
        destruct (_update_stats_after_trade_spec T O S)
          as (m3 & Hstats & Hoff3 & Hnot3 & _)
    end.
    erewrite bind_inr in HR; [|exact Hstats].
    unfold _notify_listeners in HR.
    rewrite bind_modify in HR. unfold ret in HR. subst R.
    eexists _, _, acc, res. split; [reflexivity|].
    cbn. rewrite Hoff3, Hnot3. cbn. rewrite Hnot, Hfinal. cbn.
    rewrite <- app_assoc.
    repeat split; try assumption; rewrite Hacc; reflexivity.
Qed.

(** A partial request whose trade rate is below the rate of the offer:
    the assertion of the [try] block fails and the offer is put back. *)
Lemma accept_offer_partial_low_rate k o buyer e at_ tr tbi bo boi bi
    (m : BalancingMarket.t) :
  readonly m = false → offers m !! k = Some o → Offer.id o = k →
  ¬ opposite_signs (Offer.energy o) e → ¬ (e == 0)%Q →
  (Qabs e < Qabs (Offer.energy o))%Q →
  (rate_or_default tr o + FLOATING_POINT_TOLERANCE env
     < Offer.price o / Offer.energy o)%Q →
  accept_offer env (inl k) buyer (Some e) at_ tr tbi bo boi bi m
  = (m, inl AssertionError).
Proof.
  intros Hro Hk Hid Hs He Hlt Hrate.
  destruct (partial_energy_nonzero _ _ Hlt) as [HE HEe].
  unfold accept_offer.
  rewrite bind_get, Hro, Hk, bind_modify, (sign_mismatch_compatible _ _ Hs),
    bind_lift_inr, (bind_trade_rate _ _ _ _ HE).
  erewrite bind_inl; [reflexivity|].
  erewrite try_except_inl.
  - rewrite bind_modify, Hid. cbn. unfold raise.
    rewrite (restore_offer _ _ _ Hk). reflexivity.
  - unfold accept_offer_try.
    apply Qeq_bool_false in He. rewrite He.
    apply Qltb_true in Hlt. rewrite Hlt.
    unfold Offer.energy_rate. rewrite (py_div_ok _ _ HE), bind_lift_inr.
    assert (Qle_bool (Offer.price o / Offer.energy o)
              (rate_or_default tr o + FLOATING_POINT_TOLERANCE env) = false) as ->.
    { destruct (Qle_bool _ _) eqn:Hb; [|reflexivity].
      apply Qle_bool_iff in Hb. exfalso. exact (Qlt_not_le _ _ Hrate Hb). }
    reflexivity.
Qed.

(** Full match on the ordinary path: the trade is made, the offer leaves
    the book and there is no residual. *)
Lemma accept_offer_full k o buyer e tr tbi bo boi bi (m : BalancingMarket.t) :
  readonly m = false → offers m !! k = Some o → Offer.id o = k →
  ¬ (Offer.energy o == 0)%Q →
  ¬ opposite_signs (Offer.energy o) e → ¬ (e == 0)%Q →
  (Qabs e == Qabs (Offer.energy o))%Q →
  ∃ m' trade,
    accept_offer env (inl k) buyer (Some e) false tr tbi bo boi bi m
      = (m', inr trade)
    ∧ Offer.id (BalancingTrade.offer_bid trade) = Offer.id o
    ∧ BalancingTrade.residual trade = None
    ∧ offers m' = delete k (offers m)
    ∧ notifications m' = notifications m ++ [BALANCING_TRADE trade].
Proof.
  intros Hro Hk Hid HE Hs He Habs.
  remember (accept_offer env (inl k) buyer (Some e) false tr tbi bo boi bi m)
    as R eqn:HR.
  unfold accept_offer in HR.
  rewrite bind_get, Hro, Hk, bind_modify, (sign_mismatch_compatible _ _ Hs),
    bind_lift_inr, (bind_trade_rate _ _ _ _ HE) in HR.
  erewrite bind_inr in HR.
  2:{ apply try_except_inr. unfold accept_offer_try.
      apply Qeq_bool_false in He. rewrite He.
      assert (Qltb (Qabs e) (Qabs (Offer.energy o)) = false) as ->.
      { apply Qltb_false. rewrite Habs. apply Qle_refl. }
      assert (Qltb (Qabs (Offer.energy o)) (Qabs e) = false) as ->.
      { apply Qltb_false. rewrite Habs. apply Qle_refl. }
      rewrite bind_get. cbn [negb py_unpack_pair]. rewrite bind_lift_inr.
      reflexivity. }
  cbn [fst snd] in HR. rewrite bind_modify in HR.
  erewrite bind_inr in HR; [|reflexivity].
  cbn [fst snd] in HR. rewrite bind_get in HR. cbn [negb] in HR.
  match type of HR with
  | _ = bind (_update_stats_after_trade ?T ?O) _ ?S =>
      destruct (_update_stats_after_trade_spec T O S)
        as (m3 & Hstats & Hoff3 & Hnot3 & _)
  end.
  erewrite bind_inr in HR; [|exact Hstats].
  unfold _notify_listeners in HR.
  rewrite bind_modify in HR. unfold ret in HR. subst R.
  eexists _, _. split; [reflexivity|].
  cbn. rewrite Hoff3, Hnot3. cbn. rewrite Hid, delete_delete_eq.
  repeat split; reflexivity.
Qed.

Lemma opposite_signs_dec (E e : Q) :
  {opposite_signs E e} + {¬ opposite_signs E e}.
Proof.
  unfold opposite_signs.
  destruct (Qlt_le_dec 0 E) as [H1|H1], (Qlt_le_dec e 0) as [H2|H2],
           (Qlt_le_dec E 0) as [H3|H3], (Qlt_le_dec 0 e) as [H4|H4];
    try (left; tauto);
    right; intros [[A B]|[A B]];
    first [ exact (Qlt_not_le _ _ A H1) | exact (Qlt_not_le _ _ B H2)
          | exact (Qlt_not_le _ _ A H3) | exact (Qlt_not_le _ _ B H4) ].
Qed.

(** With an explicit energy, [InvalidBalancingTradeException] is raised
    exactly for a zero request, a request of the opposite sign and a
    request that exceeds the offer. *)
Lemma accept_offer_invalid_trade_iff k o buyer e at_ tr tbi bo boi bi
    (m : BalancingMarket.t) :
  readonly m = false → offers m !! k = Some o → Offer.id o = k →
  ¬ (Offer.energy o == 0)%Q →
  snd (accept_offer env (inl k) buyer (Some e) at_ tr tbi bo boi bi m)
    = inl InvalidBalancingTradeException
  ↔ ((e == 0)%Q ∨ opposite_signs (Offer.energy o) e
     ∨ (Qabs (Offer.energy o) < Qabs e)%Q).
Proof.
  intros Hro Hk Hid HE. split.
  - intros Hres.
    destruct (opposite_signs_dec (Offer.energy o) e) as [Hs|Hs]; [tauto|].
    destruct (Qeq_dec e 0) as [He|He]; [tauto|].
    destruct (Qlt_le_dec (Qabs (Offer.energy o)) (Qabs e)) as [Hgt|Hle]; [tauto|].
    exfalso.
    destruct (Qlt_le_dec (Qabs e) (Qabs (Offer.energy o))) as [Hlt|Hge].
    + destruct (Qlt_le_dec (rate_or_default tr o + FLOATING_POINT_TOLERANCE env)
                           (Offer.price o / Offer.energy o)) as [Hlow|Hok].
      * rewrite (accept_offer_partial_low_rate _ _ _ _ _ _ _ _ _ _ _
                   Hro Hk Hid Hs He Hlt Hlow) in Hres.
        discriminate Hres.
      * destruct (accept_offer_partial k o buyer e at_ tr tbi bo boi bi m
                    Hro Hk Hid Hs He Hlt Hok) as (m' & t & ? & ? & Heq & _).
        rewrite Heq in Hres. discriminate Hres.
    + assert (Qabs e == Qabs (Offer.energy o))%Q as Habs
        by (apply Qle_antisym; assumption).
      destruct at_.
      * rewrite (accept_offer_full_already_tracked _ _ _ _ _ _ _ _ _ _
                   Hro Hk Hid HE Hs He Habs) in Hres.
        discriminate Hres.
      * destruct (accept_offer_full k o buyer e tr tbi bo boi bi m
                    Hro Hk Hid HE Hs He Habs) as (m' & t & Heq & _).
        rewrite Heq in Hres. discriminate Hres.
  - intros H.
    destruct (opposite_signs_dec (Offer.energy o) e) as [Hs|Hs].
    + rewrite (accept_offer_sign_mismatch _ _ _ _ _ _ _ _ _ _ _ Hro Hk
                 (sign_mismatch_opposite _ _ Hs)). reflexivity.
    + rewrite (accept_offer_invalid_energy _ _ _ _ _ _ _ _ _ _ _
                 Hro Hk Hid HE Hs); [reflexivity|tauto].
Qed.

(** The split conserves energy and price, and the residual offer holds
    its own price as [original_price]. *)
Lemma split_offer_conservation (o : Offer.t) (e : Q) (p : option Q)
    (m : BalancingMarket.t) :
  readonly m = false → ¬ (e == 0)%Q →
  (Qabs e < Qabs (Offer.energy o))%Q →
  ∃ m' acc res,
    split_offer env o e p m = (m', inr (acc, res))
    ∧ (Offer.energy acc + Offer.energy res == Offer.energy o)%Q
    ∧ (Offer.price acc + Offer.price res == Offer.price o)%Q
    ∧ Offer.original_price res = Offer.price res
    ∧ (Offer.price res
       == (Offer.energy o - e) / Offer.energy o * Offer.price o)%Q.
Proof.
  intros Hro He Hlt.
  destruct (partial_energy_nonzero _ _ Hlt) as [HE HEe].
  destruct (split_offer_spec o e p m Hro HE He HEe)
    as (acc & res & m' & Hsplit & Hacc & Hres & _).
  exists m', acc, res. split; [exact Hsplit|].
  rewrite Hacc, Hres. cbn.
  repeat split; try reflexivity; field; exact HE.
Qed.
(** Every offer that [balancing_offer] creates has its price as original
    price: the constructor is called without [original_price]. *)
Lemma balancing_offer_original_price price energy seller op oid fa ap de so
    at_ rq (m m' : BalancingMarket.t) o :
  balancing_offer env price energy seller op oid fa ap de so at_ rq m
    = (m', inr o) →
  Offer.original_price o = Offer.price o.
Proof.
  unfold balancing_offer. rewrite bind_get.
  destruct (negb (bool_decide (seller ∈ REGISTRY env)) && negb fa);
    [discriminate|].
  destruct (readonly m); [discriminate|].
  destruct (Qeq_bool energy 0); [discriminate|].
  unfold _notify_listeners.
  destruct ap, de; [destruct (_is_constant_fees m)| |destruct (_is_constant_fees m)|];
    rewrite ?bind_modify; cbn; intros H; injection H as _ <-; reflexivity.
Qed.
End BalancingMarketFacts.

(** ** The forwarding engine *)

Section EngineFacts.
Import IAAEngine.
Variable owner : Owner.

(** An aged, live, untracked source offer whose seller is the owner of
    the agent: the iteration drops its age entry and does nothing
    else, whatever [usable_offer] answers and whatever [_forward_offer]
    would do. *)
Lemma propagate_entry_own_offer forward current_tick offer_id age offer
    (w : World) :
  forwarded_offers (engine w) !! offer_id = None →
  (min_offer_age (engine w) <= current_tick - age)%Z →
  BalancingMarket.offers (source w) !! offer_id = Some offer →
  Offer.seller offer = owner_name owner →
  propagate_entry owner forward current_tick (offer_id, age) w
  = (set_engine (set_offer_age (delete offer_id)) w, inr tt).
Proof.
  intros Hfo Hage Hoffer Hseller. unfold propagate_entry. cbn [fst snd].
  rewrite bind_get, Hfo.
  rewrite bool_decide_eq_false_2 by (intros [? ?]; discriminate).
  rewrite bool_decide_eq_false_2 by lia.
  rewrite Hoffer.
  destruct (usable_offer owner w offer); cbn [negb]; [|reflexivity].
  rewrite Hseller, String.eqb_refl. reflexivity.
Qed.

(** [_add_to_forward_offers]: both ids resolve to the new record. *)
Lemma _add_to_forward_offers_spec (s t : Offer.t) (w : World) :
  let info := mkOfferInfo s t in
  let fo' := <[Offer.id t := info]> (<[Offer.id s := info]>
               (forwarded_offers (engine w))) in
  _add_to_forward_offers s t w
  = (set_engine (set_forwarded_offers (λ _, fo')) w, inr tt)
  ∧ fo' !! Offer.id s = Some info ∧ fo' !! Offer.id t = Some info.
Proof.
  cbn zeta. split; [|split].
  - unfold _add_to_forward_offers. rewrite !bind_modify.
    destruct w as [[] ? ?]. reflexivity.
  - destruct (decide (Offer.id t = Offer.id s)) as [->|Hne].
    + apply lookup_insert_eq.
    + rewrite lookup_insert_ne by exact Hne. apply lookup_insert_eq.
  - apply lookup_insert_eq.
Qed.

(** [_delete_forwarded_offer_entries] on a tracked offer: the key and
    both ids of its record leave the mapping together. *)
Lemma _delete_forwarded_offer_entries_spec (o : Offer.t) info (w : World) :
  forwarded_offers (engine w) !! Offer.id o = Some info →
  let fo' := delete (Offer.id (source_offer info))
               (delete (Offer.id (target_offer info))
                  (delete (Offer.id o) (forwarded_offers (engine w)))) in
  _delete_forwarded_offer_entries o w
  = (set_engine (set_forwarded_offers (λ _, fo')) w, inr tt)
  ∧ fo' !! Offer.id o = None
  ∧ fo' !! Offer.id (source_offer info) = None
  ∧ fo' !! Offer.id (target_offer info) = None.
Proof.
  intros Hfo. cbn zeta. split; [|split; [|split]].
  - unfold _delete_forwarded_offer_entries.
    rewrite bind_get, bind_modify, Hfo, bind_modify.
    destruct w as [[] ? ?]. reflexivity.
  - rewrite !lookup_delete. repeat case_decide; congruence.
  - rewrite !lookup_delete. repeat case_decide; congruence.
  - rewrite !lookup_delete. repeat case_decide; congruence.
Qed.

(** The two assertions that close [event_offer_traded]. *)
Lemma event_offer_traded_removes_record trade info (w w' : World) :
  forwarded_offers (engine w) !! Offer.id (BalancingTrade.offer_bid trade)
    = Some info →
  event_offer_traded owner trade w = (w', inr tt) →
  forwarded_offers (engine w') !! Offer.id (source_offer info) = None
  ∧ forwarded_offers (engine w') !! Offer.id (target_offer info) = None.
Proof.
  intros Hfo H. unfold event_offer_traded in H.
  rewrite bind_get, Hfo in H. unfold bind at 1 in H.
  match type of H with
  | match ?X with _ => _ end = _ => destruct X as [w1 [e|[]]]
  end; [discriminate H|].
  rewrite bind_get in H.
  destruct (forwarded_offers (engine w1) !! Offer.id (source_offer info))
    as [x|] eqn:Hs.
  { rewrite bool_decide_eq_true_2 in H by eauto. discriminate H. }
  destruct (forwarded_offers (engine w1) !! Offer.id (target_offer info))
    as [x|] eqn:Ht.
  { rewrite bool_decide_eq_false_2 in H by (intros [? ?]; discriminate).
    rewrite bool_decide_eq_true_2 in H by eauto. discriminate H. }
  rewrite !bool_decide_eq_false_2 in H by (intros [? ?]; discriminate).
  cbn in H. injection H as <-. split; assumption.
Qed.

(** The rate assertion of [event_offer_traded] for a trade on the target
    side: when the magnitude of the source rate exceeds the magnitude
    of the target rate by more than the tolerance, the handler stops
    with [AssertionError] and changes nothing. *)
Lemma event_offer_traded_rate_violation trade info (w : World) :
  forwarded_offers (engine w) !! Offer.id (BalancingTrade.offer_bid trade)
    = Some info →
  Offer.id (BalancingTrade.offer_bid trade) = Offer.id (target_offer info) →
  ¬ (Offer.energy (source_offer info) == 0)%Q →
  ¬ (Offer.energy (target_offer info) == 0)%Q →
  (Qabs (Offer.price (target_offer info) / Offer.energy (target_offer info))
     + FLOATING_POINT_TOLERANCE owner
   < Qabs (Offer.price (source_offer info) / Offer.energy (source_offer info)))%Q →
  event_offer_traded owner trade w = (w, inl AssertionError).
Proof.
  intros Hfo Hid Hs Ht Hlt. unfold event_offer_traded.
  rewrite bind_get, Hfo, Hid, String.eqb_refl.
  erewrite bind_inl; [reflexivity|].
  unfold Offer.energy_rate.
  rewrite (py_div_ok _ _ Hs), bind_lift_inr, (py_div_ok _ _ Ht), bind_lift_inr.
  match goal with
  | |- context [Qle_bool ?a ?b] =>
      assert (Qle_bool a b = false) as ->
  end.
  { destruct (Qle_bool _ _) eqn:Hb; [|reflexivity].
    apply Qle_bool_iff in Hb. exfalso. exact (Qlt_not_le _ _ Hlt Hb). }
  reflexivity.
Qed.

Lemma event_offer_traded_rate_checked trade info (w w' : World) :
  forwarded_offers (engine w) !! Offer.id (BalancingTrade.offer_bid trade)
    = Some info →
  Offer.id (BalancingTrade.offer_bid trade) = Offer.id (target_offer info) →
  ¬ (Offer.energy (source_offer info) == 0)%Q →
  ¬ (Offer.energy (target_offer info) == 0)%Q →
  event_offer_traded owner trade w = (w', inr tt) →
  (Qabs (Offer.price (source_offer info) / Offer.energy (source_offer info))
   <= Qabs (Offer.price (target_offer info) / Offer.energy (target_offer info))
      + FLOATING_POINT_TOLERANCE owner)%Q.
Proof.
  intros Hfo Hid Hs Ht H.
  match goal with |- (?a <= ?b)%Q => destruct (Qlt_le_dec b a) as [Hlt|Hle] end;
    [|exact Hle].
  rewrite (event_offer_traded_rate_violation _ _ _ Hfo Hid Hs Ht Hlt) in H.
  discriminate H.
Qed.

(** A trade on the source side whose target mirror is already gone:
    [OfferNotFoundException] is absorbed, the record and the age entry
    are removed. *)
Lemma event_offer_traded_source_side_absorbs trade info (w w1 : World) :
  forwarded_offers (engine w) !! Offer.id (BalancingTrade.offer_bid trade)
    = Some info →
  Offer.id (BalancingTrade.offer_bid trade) ≠ Offer.id (target_offer info) →
  Offer.id (BalancingTrade.offer_bid trade) = Offer.id (source_offer info) →
  delete_offer owner (target_offer info) w = (w1, inl OfferNotFoundException) →
  forwarded_offers (engine w1) = forwarded_offers (engine w) →
  ∃ w', event_offer_traded owner trade w = (w', inr tt)
        ∧ forwarded_offers (engine w') !! Offer.id (source_offer info) = None
        ∧ forwarded_offers (engine w') !! Offer.id (target_offer info) = None
        ∧ offer_age (engine w') !! Offer.id (source_offer info) = None.
Proof.
  intros Hfo Hnt Hid Hdel Hsame.
  assert (forwarded_offers (engine w1) !! Offer.id (source_offer info)
          = Some info) as Hfo1 by (rewrite Hsame, <- Hid; exact Hfo).
  destruct (_delete_forwarded_offer_entries_spec _ _ _ Hfo1)
    as (Hd & _ & Hd1 & Hd2).
  eexists. split.
  - unfold event_offer_traded. rewrite bind_get, Hfo.
    apply String.eqb_neq in Hnt. rewrite Hnt, Hid, String.eqb_refl.
    erewrite bind_inr.
    2:{ erewrite bind_inr.
        2:{ erewrite try_except_inl; [|exact Hdel]. reflexivity. }
        erewrite bind_inr; [|exact Hd].
        reflexivity. }
    rewrite bind_get. cbn.
    rewrite !bool_decide_eq_false_2; [reflexivity| |];
      intros [x Hx]; rewrite ?Hd1, ?Hd2 in Hx; discriminate Hx.
  - cbn. repeat split; [exact Hd1|exact Hd2|apply lookup_delete_eq].
Qed.

(** The source offer of a record is deleted and its target mirror is
    already gone: [event_offer_deleted] absorbs
    [OfferNotFoundException]; the age entry was dropped before the call
    to the target market. *)
Lemma event_offer_deleted_absorbs offer info (w w1 : World) :
  forwarded_offers (engine w) !! Offer.id offer = Some info →
  Offer.id (source_offer info) = Offer.id offer →
  delete_offer owner (target_offer info)
    (set_engine (set_offer_age (delete (Offer.id offer))) w)
    = (w1, inl OfferNotFoundException) →
  event_offer_deleted owner offer w = (w1, inr tt).
Proof.
  intros Hfo Hid Hdel. unfold event_offer_deleted.
  rewrite bind_modify, bind_get. cbn [engine set_engine forwarded_offers
    set_offer_age]. rewrite Hfo, Hid, String.eqb_refl.
  erewrite try_except_inl.
  2:{ erewrite bind_inl; [reflexivity|exact Hdel]. }
  reflexivity.
Qed.

(** A trade on the target side whose source offer is already gone:
    [OfferNotFoundException] is raised again by the handler. *)
Lemma event_offer_traded_target_side_reraises trade info (w w1 : World) :
  forwarded_offers (engine w) !! Offer.id (BalancingTrade.offer_bid trade)
    = Some info →
  Offer.id (BalancingTrade.offer_bid trade) = Offer.id (target_offer info) →
  ¬ (Offer.energy (source_offer info) == 0)%Q →
  ¬ (Offer.energy (target_offer info) == 0)%Q →
  ¬ (Offer.energy (BalancingTrade.offer_bid trade) == 0)%Q →
  (Qabs (Offer.price (source_offer info) / Offer.energy (source_offer info))
   <= Qabs (Offer.price (target_offer info) / Offer.energy (target_offer info))
      + FLOATING_POINT_TOLERANCE owner)%Q →
  (∀ rate info',
     accept_offer owner (source_offer info)
       (Offer.energy (BalancingTrade.offer_bid trade)) (owner_name owner)
       rate info' (BalancingTrade.buyer_origin trade)
       (BalancingTrade.buyer_origin_id trade) (Some (owner_uuid owner)) w
     = (w1, inl OfferNotFoundException)) →
  event_offer_traded owner trade w = (w1, inl OfferNotFoundException).
Proof.
  intros Hfo Hid Hs Ht Hb Hle Hacc. unfold event_offer_traded.
  rewrite bind_get, Hfo, Hid, String.eqb_refl.
  erewrite bind_inl; [reflexivity|].
  unfold Offer.energy_rate.
  rewrite (py_div_ok _ _ Hs), bind_lift_inr, (py_div_ok _ _ Ht), bind_lift_inr.
  apply Qle_bool_iff in Hle. rewrite Hle. unfold py_assert. rewrite bind_ret.
  erewrite bind_inl; [reflexivity|].
  rewrite (try_except_inl _ _ w w1 OfferNotFoundException); [reflexivity|].
  destruct (MARKET_TYPE_is_ONE_SIDED owner).
  - erewrite bind_inr; [apply bind_inl, Hacc|].
    rewrite (py_div_ok _ _ Hb), bind_lift_inr, (py_div_ok _ _ Hb),
      bind_lift_inr. reflexivity.
  - rewrite bind_ret. apply bind_inl, Hacc.
Qed.
(** The rate of an offer of positive energy whose price is not negative. *)
Lemma rate_nonneg (p e : Q) : (0 <= p)%Q → (0 < e)%Q → (0 <= p / e)%Q.
Proof.
  intros Hp He. apply Qle_shift_div_l; [exact He|].
  rewrite Qmult_0_l. exact Hp.
Qed.

(** On the records that the engines make, the comparison of magnitudes
    in [event_offer_traded] is the comparison of the rates. *)
Lemma recorded_rate_check info :
  (0 <= FLOATING_POINT_TOLERANCE owner)%Q →
  recorded_by_forwarding info →
  (Qabs (Offer.price (source_offer info) / Offer.energy (source_offer info))
   <= Qabs (Offer.price (target_offer info) / Offer.energy (target_offer info))
      + FLOATING_POINT_TOLERANCE owner)%Q
  ↔ (Offer.price (source_offer info) / Offer.energy (source_offer info)
     <= Offer.price (target_offer info) / Offer.energy (target_offer info)
        + FLOATING_POINT_TOLERANCE owner)%Q.
Proof.
  intros Htol [[Hp He]|(Hps & Hes & Hpt & Het)].
  - rewrite Hp, He. split; intros _.
    + rewrite <- (Qplus_0_r (_ / _)) at 1.
      apply Qplus_le_r. exact Htol.
    + rewrite <- (Qplus_0_r (Qabs _)) at 1.
      apply Qplus_le_r. exact Htol.
  - rewrite (Qabs_pos _ (rate_nonneg _ _ Hps Hes)),
      (Qabs_pos _ (rate_nonneg _ _ Hpt Het)). reflexivity.
Qed.

(** The record of [BalancingEngine._forward_offer]: the mirror copies
    the price and the energy of the offer. *)
Lemma balancing_forward_offer_recorded offer mirror (w w' : World) :
  BalancingEngine._forward_offer owner offer w = (w', inr (Some mirror)) →
  forwarded_offers (engine w') !! Offer.id mirror
    = Some (mkOfferInfo offer mirror)
  ∧ recorded_by_forwarding (mkOfferInfo offer mirror).
Proof.
  unfold BalancingEngine._forward_offer, bind at 1, on_target.
  unfold BalancingMarket.balancing_offer. rewrite bind_get.
  rewrite andb_false_r.
  destruct (BalancingMarket.readonly (target w)); [discriminate|].
  destruct (Qeq_bool (Offer.energy offer) 0); [discriminate|].
  unfold BalancingMarket._notify_listeners. rewrite !bind_modify.
  cbn [fst snd ret].
  match goal with
  | |- bind (_add_to_forward_offers _ ?m) _ ?w0 = _ → _ =>
      destruct (_add_to_forward_offers_spec offer m w0) as (Hadd & _ & Hlt);
      rewrite (bind_inr _ _ _ _ _ Hadd)
  end.
  intros H. injection H as <- <-. split; [exact Hlt|].
  left. split; reflexivity.
Qed.

(** [IAAEngine._forward_offer] records no offer of negative price. *)
Lemma forward_offer_recorded_price offer mirror (w w' : World) :
  _forward_offer owner offer w = (w', inr (Some mirror)) →
  (0 <= Offer.price offer)%Q.
Proof.
  unfold _forward_offer.
  destruct (Qltb (Offer.price offer) 0) eqn:Hp; [discriminate|].
  intros _. apply Qltb_false. exact Hp.
Qed.

(** Mirroring a split keeps the records of that kind: the two parts of
    the source offer and the two parts of its mirror, priced in
    proportion to the energy as [split_offer] does, copy each other when
    the mirror copies the source offer, and are spot offers of positive
    energy and prices not negative when the offers are and the accepted
    energy is a positive part of both. *)
Lemma recorded_by_forwarding_split (s t acc_s res_s acc_t res_t : Offer.t)
    (a : Q) :
  Offer.price acc_s = (Offer.price s * (a / Offer.energy s))%Q →
  Offer.energy acc_s = a →
  Offer.price res_s = ((1 - a / Offer.energy s) * Offer.price s)%Q →
  Offer.energy res_s = (Offer.energy s - a)%Q →
  Offer.price acc_t = (Offer.price t * (a / Offer.energy t))%Q →
  Offer.energy acc_t = a →
  Offer.price res_t = ((1 - a / Offer.energy t) * Offer.price t)%Q →
  Offer.energy res_t = (Offer.energy t - a)%Q →
  recorded_by_forwarding (mkOfferInfo s t) →
  ((0 < Offer.energy s)%Q →
   (0 < a)%Q ∧ (a < Offer.energy s)%Q ∧ (a < Offer.energy t)%Q) →
  recorded_by_forwarding (mkOfferInfo acc_s acc_t)
  ∧ recorded_by_forwarding (mkOfferInfo res_s res_t).
Proof.
  intros Has Hes Hrs Hers Hat Het Hrt Hert [[Hp He]|(Hps & HEs & Hpt & HEt)] Ha.
  - cbn in Hp, He. split; left; cbn; split; congruence.
  - cbn in *. destruct (Ha HEs) as (Ha0 & Has' & Hat').
    assert (∀ P E, (0 <= P)%Q → (0 < E)%Q → (a < E)%Q →
              (0 <= P * (a / E))%Q ∧ (0 <= (1 - a / E) * P)%Q ∧ (0 < E - a)%Q)
      as Hpart.
    { intros P E HP HE HaE.
      assert (0 <= a / E)%Q as H1
        by (apply rate_nonneg; [apply Qlt_le_weak; exact Ha0|exact HE]).
      assert (a / E <= 1)%Q as H2.
      { apply Qle_shift_div_r; [exact HE|].
        rewrite Qmult_1_l. apply Qlt_le_weak. exact HaE. }
      split; [apply Qmult_le_0_compat; assumption|].
      split; [apply Qmult_le_0_compat; [|exact HP]|].
      - apply -> Qle_minus_iff. exact H2.
      - apply -> Qlt_minus_iff. exact HaE. }
    destruct (Hpart _ _ Hps HEs Has') as (H1 & H2 & H3).
    destruct (Hpart _ _ Hpt HEt Hat') as (H4 & H5 & H6).
    split; right; cbn; rewrite ?Has, ?Hes, ?Hrs, ?Hers, ?Hat, ?Het, ?Hrt, ?Hert;
      repeat split; assumption.
Qed.
End EngineFacts.

(** ** The pairing of [forwarded_offers] *)

Section Pairing.
Import IAAEngine.

Lemma paired_empty : paired ∅.
Proof. intros k info H. rewrite lookup_empty in H. discriminate H. Qed.

(** Adding a record keeps the pairing when every record already stored
    under one of the two ids has both of its ids among them: neither id
    is tracked ([_forward_offer]), or the two ids are those of one
    record, which is replaced (split on the target side). *)
Lemma paired_add (s t : Offer.t) (fo : gmap string OfferInfo) :
  paired fo →
  (∀ k info, (k = Offer.id s ∨ k = Offer.id t) → fo !! k = Some info →
     (Offer.id (source_offer info) = Offer.id s
      ∨ Offer.id (source_offer info) = Offer.id t)
     ∧ (Offer.id (target_offer info) = Offer.id s
        ∨ Offer.id (target_offer info) = Offer.id t)) →
  paired (<[Offer.id t := mkOfferInfo s t]>
            (<[Offer.id s := mkOfferInfo s t]> fo)).
Proof.
  intros Hp Hnew k info Hk.
  assert (∀ j, <[Offer.id t := mkOfferInfo s t]>
                 (<[Offer.id s := mkOfferInfo s t]> fo) !! j
               = if decide (j = Offer.id s ∨ j = Offer.id t)
                 then Some (mkOfferInfo s t) else fo !! j) as Hlook.
  { intros j. rewrite !lookup_insert.
    repeat case_decide; try reflexivity; intuition congruence. }
  rewrite Hlook in Hk. rewrite !Hlook. case_decide as Hc.
  - injection Hk as <-. cbn.
    rewrite !decide_True by tauto. tauto.
  - destruct (Hp k info Hk) as (Hkey & Hs & Ht).
    assert (¬ (Offer.id (source_offer info) = Offer.id s
               ∨ Offer.id (source_offer info) = Offer.id t)) as Hns.
    { intros Hin.
      destruct (Hnew _ info Hin Hs) as [Hs' Ht'].
      apply Hc. destruct Hkey as [->| ->]; assumption. }
    assert (¬ (Offer.id (target_offer info) = Offer.id s
               ∨ Offer.id (target_offer info) = Offer.id t)) as Hnt.
    { intros Hin.
      destruct (Hnew _ info Hin Ht) as [Hs' Ht'].
      apply Hc. destruct Hkey as [->| ->]; assumption. }
    rewrite !decide_False by assumption. tauto.
Qed.

(** Deleting the entries of a tracked offer keeps the pairing. *)
Lemma paired_delete (o : Offer.t) info (fo : gmap string OfferInfo) :
  paired fo → fo !! Offer.id o = Some info →
  paired (delete (Offer.id (source_offer info))
            (delete (Offer.id (target_offer info))
               (delete (Offer.id o) fo))).
Proof.
  intros Hp Ho k info' Hk.
  destruct (Hp _ _ Ho) as (Hokey & Hos & Hot).
  assert (∀ j, delete (Offer.id (source_offer info))
                 (delete (Offer.id (target_offer info))
                    (delete (Offer.id o) fo)) !! j
               = if decide (j = Offer.id (source_offer info)
                            ∨ j = Offer.id (target_offer info))
                 then None else fo !! j) as Hlook.
  { intros j. rewrite !lookup_delete.
    repeat case_decide; try reflexivity; intuition congruence. }
  rewrite Hlook in Hk. rewrite !Hlook. case_decide as Hc; [discriminate Hk|].
  destruct (Hp _ _ Hk) as (Hkey & Hs & Ht).
  assert (info' ≠ info) as Hne.
  { intros ->. apply Hc. exact Hkey. }
  assert (∀ j, fo !! j = Some info' →
               ¬ (j = Offer.id (source_offer info)
                  ∨ j = Offer.id (target_offer info))) as Hother.
  { intros j Hj [->| ->]; congruence. }
  rewrite !decide_False by (apply Hother; assumption). tauto.
Qed.
End Pairing.

(** * The claims of the specification *)

Section MarketClaims.
Import BalancingMarket.

(** C10.  [BalancingMarket.offer] raises [AssertionError] for every
    argument tuple and every market, and leaves the market as it was:
    it never stores an offer.  The entry point that stores one is
    [balancing_offer]: either it raises and the market is unchanged, or
    the offer it returns is in the book under its id. *)
Theorem offer_always_asserts env price energy seller seller_origin offer_id
    original_price dispatch_event adapt_price_with_fees add_to_history
    seller_origin_id seller_id attributes requirements time_slot from_agent
    (m : BalancingMarket.t) :
  BalancingMarket.offer price energy seller seller_origin offer_id original_price
    dispatch_event adapt_price_with_fees add_to_history seller_origin_id
    seller_id attributes requirements time_slot m = (m, inl AssertionError)
  ∧ match balancing_offer env price energy seller original_price offer_id
            from_agent adapt_price_with_fees dispatch_event (Some seller_origin)
            attributes requirements m with
    | (m', inr o) => offers m' !! Offer.id o = Some o
    | (m', inl _) => m' = m
    end.
Proof.
  split; [reflexivity|].
  unfold balancing_offer. unfold bind at 1. unfold get at 1. cbn beta iota.
  destruct (negb (bool_decide (seller ∈ REGISTRY env)) && negb from_agent);
    [reflexivity|].
  destruct (readonly m); [reflexivity|].
  destruct (Qeq_bool energy 0); [reflexivity|].
  destruct dispatch_event; cbn; apply lookup_insert_eq.
Qed.

(** C9.  A partial acceptance (a request of the sign of the offer, not
    zero, smaller in magnitude than the offer, at a trade rate that
    passes the rate assertion) on a writable market succeeds; the
    accepted fragment and the traded offer carry the id of the original
    offer, the residual fragment gets an id that differs from it and
    from every id of the book, and the notification
    [BALANCING_OFFER_SPLIT] is emitted before [BALANCING_TRADE]. *)
Theorem partial_acceptance_ids_and_notifications env k o buyer e
    already_tracked trade_rate trade_bid_info buyer_origin buyer_origin_id
    buyer_id (m : BalancingMarket.t) :
  (∀ X, uuid4 env X ∉ X) →
  readonly m = false → offers m !! k = Some o → Offer.id o = k →
  ¬ opposite_signs (Offer.energy o) e → ¬ (e == 0)%Q →
  (Qabs e < Qabs (Offer.energy o))%Q →
  (Offer.price o / Offer.energy o
     <= rate_or_default trade_rate o + BalancingMarket.FLOATING_POINT_TOLERANCE env)%Q →
  ∃ m' trade accepted residual,
    BalancingMarket.accept_offer env (inl k) buyer (Some e) already_tracked
      trade_rate trade_bid_info buyer_origin buyer_origin_id buyer_id m
      = (m', inr trade)
    ∧ Offer.id accepted = Offer.id o
    ∧ Offer.id (BalancingTrade.offer_bid trade) = Offer.id o
    ∧ BalancingTrade.residual trade = Some residual
    ∧ Offer.id residual ≠ Offer.id o
    ∧ offers m !! Offer.id residual = None
    ∧ offers m' = <[Offer.id residual := residual]> (delete k (offers m))
    ∧ notifications m'
      = notifications m
        ++ [BALANCING_OFFER_SPLIT o accepted residual; BALANCING_TRADE trade].
Proof.
  intros Hfresh Hro Hk Hid Hs He Hlt Hrate.
  destruct (accept_offer_partial env Hfresh k o buyer e already_tracked
              trade_rate trade_bid_info buyer_origin buyer_origin_id buyer_id m
              Hro Hk Hid Hs He Hlt Hrate)
    as (m' & trade & acc & res & H1 & H2 & _ & H3 & H4 & H5 & H6 & H7 & H8).
  exists m', trade, acc, res. repeat split; assumption.
Qed.

Lemma not_opposite_10_5 : ¬ opposite_signs 10 5.
Proof. intros [[_ H]|[H _]]; vm_compute in H; discriminate H. Qed.

Lemma partial_acceptance_ids_and_notifications_witness :
∃ m' trade accepted residual,
  BalancingMarket.accept_offer (Demo.env "uuid") (inl "o1") "B" (Some 5%Q) false
    None None None None None Demo.market_A = (m', inr trade)
  ∧ Offer.id accepted = "o1"
  ∧ Offer.id (BalancingTrade.offer_bid trade) = "o1"
  ∧ BalancingTrade.residual trade = Some residual
  ∧ Offer.id residual ≠ "o1"
  ∧ offers Demo.market_A !! Offer.id residual = None
  ∧ offers m' = <[Offer.id residual := residual]> (delete "o1" (offers Demo.market_A))
  ∧ notifications m'
    = notifications Demo.market_A
      ++ [BALANCING_OFFER_SPLIT Demo.offer_A accepted residual; BALANCING_TRADE trade].
Proof.
apply (partial_acceptance_ids_and_notifications (Demo.env "uuid") "o1"
         Demo.offer_A "B" 5 false None None None None None Demo.market_A).
- intros X. apply fresh_string_of_set_fresh.
- reflexivity.
- reflexivity.
- reflexivity.
- exact not_opposite_10_5.
- intros H. vm_compute in H. discriminate H.
- reflexivity.
- vm_compute. intros H. discriminate H.
Defined.

(** C1 (not met by the code).  A failed acceptance should leave the book
    as it was.  The request of -5 on the supply offer "o1" (energy 10)
    has the opposite sign: [accept_offer] raises
    [InvalidBalancingTradeException] after it has taken the offer from
    the book and before it enters the [try] block that restores it,
    and "o1" is lost.  The requests of zero energy and of excess energy,
    raised inside the block, leave the market as it was. *)
Theorem accept_offer_sign_mismatch_loses_offer :
  let accept energy :=
    BalancingMarket.accept_offer (Demo.env "uuid") (inl "o1") "B" (Some energy)
      false None None None None None Demo.market_A in
  offers Demo.market_A !! "o1" = Some Demo.offer_A
  ∧ snd (accept (-5)%Q) = inl InvalidBalancingTradeException
  ∧ offers (fst (accept (-5)%Q)) !! "o1" = None
  ∧ accept 0%Q = (Demo.market_A, inl InvalidBalancingTradeException)
  ∧ accept 21%Q = (Demo.market_A, inl InvalidBalancingTradeException).
Proof.
  cbn zeta. split; [reflexivity|].
  assert (opposite_signs (Offer.energy Demo.offer_A) (-5)) as Hopp.
  { left. split; reflexivity. }
  rewrite (accept_offer_sign_mismatch (Demo.env "uuid") "o1" Demo.offer_A "B"
             (Some (-5)%Q) false None None None None None Demo.market_A
             eq_refl eq_refl (sign_mismatch_opposite _ _ Hopp)).
  split; [reflexivity|]. split; [apply lookup_delete_eq|].
  split; vm_compute; reflexivity.
Qed.

(** C2 (not met by the code).  A full match with [already_tracked=True]
    should return a trade priced by the fee policy.  On "o1" (price 20,
    energy 10) the request of the full energy 10 makes the code unpack
    the number [energy * trade_rate] into [fees, trade_price]:
    [TypeError] is raised, the offer is put back and no trade is
    returned.  With [already_tracked=False] the same request returns the
    trade, at the price 20 of the fee policy. *)
Theorem accept_offer_full_already_tracked_raises :
  let accept already_tracked :=
    BalancingMarket.accept_offer (Demo.env "uuid") (inl "o1") "B" (Some 10%Q)
      already_tracked None None None None None Demo.market_A in
  accept true = (Demo.market_A, inl TypeError)
  ∧ match snd (accept false) with
    | inr trade =>
        (Offer.price (BalancingTrade.offer_bid trade) == 20)%Q
        ∧ BalancingTrade.residual trade = None
    | inl _ => False
    end.
Proof.
  cbn zeta. split.
  - vm_compute. reflexivity.
  - vm_compute. split; reflexivity.
Qed.

(** C4.  For every balancing offer (its original price is its price, as
    for every offer that [balancing_offer] creates) of energy E and
    price P, split by [split_offer] at an accepted energy a with
    0 < |a| < |E|, whatever [orig_offer_price] is passed: the energies
    of the accepted and of the residual offer add up to E, their prices
    add up to P, and the original price of the residual offer is the
    share (E - a) / E of the original price of the offer.  The two
    parts are balancing offers of that kind again. *)
Theorem split_offer_conserves_and_apportions env (o : Offer.t) (a : Q)
    (orig_offer_price : option Q) (m : BalancingMarket.t) :
  readonly m = false →
  Offer.original_price o = Offer.price o →
  (0 < Qabs a)%Q → (Qabs a < Qabs (Offer.energy o))%Q →
  ∃ accepted residual m',
    split_offer env o a orig_offer_price m = (m', inr (accepted, residual))
    ∧ (Offer.energy accepted + Offer.energy residual == Offer.energy o)%Q
    ∧ (Offer.price accepted + Offer.price residual == Offer.price o)%Q
    ∧ (Offer.original_price residual
       == (Offer.energy o - a) / Offer.energy o * Offer.original_price o)%Q
    ∧ Offer.original_price accepted = Offer.price accepted
    ∧ Offer.original_price residual = Offer.price residual.
Proof.
  intros Hro Horig Ha Hlt.
  assert (¬ (a == 0)%Q) as Ha0.
  { intros H. rewrite H in Ha. exact (Qlt_irrefl _ Ha). }
  destruct (partial_energy_nonzero _ _ Hlt) as [HE HEa].
  destruct (split_offer_spec env o a orig_offer_price m Hro HE Ha0 HEa)
    as (acc & res & m' & Hsplit & Hacc & Hres & _).
  exists acc, res, m'. split; [exact Hsplit|].
  rewrite Horig, Hacc, Hres. cbn.
  repeat split; try reflexivity; field; exact HE.
Qed.

Lemma split_offer_conserves_and_apportions_witness :
  ∃ accepted residual m',
    split_offer (Demo.env "uuid") Demo.offer_A 4
      (Some (Offer.original_price Demo.offer_A)) Demo.market_A
      = (m', inr (accepted, residual))
    ∧ (Offer.energy accepted + Offer.energy residual == 10)%Q
    ∧ (Offer.price accepted + Offer.price residual == 20)%Q
    ∧ (Offer.original_price residual == (10 - 4) / 10 * 20)%Q
    ∧ Offer.original_price accepted = Offer.price accepted
    ∧ Offer.original_price residual = Offer.price residual.
Proof.
  apply (split_offer_conserves_and_apportions (Demo.env "uuid") Demo.offer_A 4
           (Some (Offer.original_price Demo.offer_A)) Demo.market_A).
  - reflexivity.
  - reflexivity.
  - reflexivity.
  - reflexivity.
Defined.

(** C8 (not met by the code).  With the energy omitted the acceptance
    should be a full match.  [accept_offer] compares [energy] with 0 in
    the sign check before it replaces [None] by the energy of the
    offer: on "o1" the check raises [TypeError], outside the [try]
    block, so no trade is made and "o1" is not put back. *)
Theorem accept_offer_energy_omitted_raises :
  let r :=
    BalancingMarket.accept_offer (Demo.env "uuid") (inl "o1") "B" None
      false None None None None None Demo.market_A in
  offers Demo.market_A !! "o1" = Some Demo.offer_A
  ∧ snd r = inl TypeError
  ∧ offers (fst r) !! "o1" = None
  ∧ trades (fst r) = [].
Proof.
  cbn zeta. split; [reflexivity|].
  assert (¬ (Offer.energy Demo.offer_A == 0)%Q) as HE.
  { intros H. vm_compute in H. discriminate H. }
  rewrite (accept_offer_energy_omitted (Demo.env "uuid") "o1" Demo.offer_A "B"
             false None None None None None Demo.market_A eq_refl eq_refl HE).
  split; [reflexivity|]. split; [apply lookup_delete_eq|reflexivity].
Qed.
End MarketClaims.

Section EngineClaims.
Import IAAEngine.

(** C5, as the code has it.  In an iteration of [propagate_offer] over
    an aged, untracked entry whose offer is live in the source market
    and has the owner's name as seller, the engine drops the age entry
    and continues: nothing is raised, nothing is forwarded (the result
    does not depend on [_forward_offer]) and neither market changes. *)
Theorem propagate_skips_own_offer owner forward current_tick offer_id age
    offer (w : World) :
  forwarded_offers (engine w) !! offer_id = None →
  (min_offer_age (engine w) <= current_tick - age)%Z →
  BalancingMarket.offers (source w) !! offer_id = Some offer →
  Offer.seller offer = owner_name owner →
  ∃ w', propagate_entry owner forward current_tick (offer_id, age) w
          = (w', inr tt)
        ∧ offer_age (engine w') = delete offer_id (offer_age (engine w))
        ∧ forwarded_offers (engine w') = forwarded_offers (engine w)
        ∧ source w' = source w ∧ target w' = target w.
Proof.
  intros Hfo Hage Hoffer Hseller. eexists. split.
  - apply propagate_entry_own_offer with (offer := offer); assumption.
  - repeat split; reflexivity.
Qed.

Lemma propagate_skips_own_offer_witness :
  ∃ w', propagate_entry Demo.owner (_forward_offer Demo.owner) 5 ("o1", 0%Z)
          Demo.world_own_offer = (w', inr tt)
        ∧ offer_age (engine w')
          = delete "o1" (offer_age (engine Demo.world_own_offer))
        ∧ forwarded_offers (engine w')
          = forwarded_offers (engine Demo.world_own_offer)
        ∧ source w' = source Demo.world_own_offer
        ∧ target w' = target Demo.world_own_offer.
Proof.
  apply (propagate_skips_own_offer Demo.owner (_forward_offer Demo.owner) 5
           "o1" 0 Demo.own_offer Demo.world_own_offer).
  - reflexivity.
  - vm_compute. intros H. discriminate H.
  - reflexivity.
  - reflexivity.
Defined.

(** C5 as stated fails: the offer "o1" of [Demo.world_own_offer] is live
    in the source market, was first seen at tick 0, is untracked and has
    the owner's name "IAA" as seller; at tick 5 (minimum age 2)
    [propagate_offer] returns normally, for the spot engine and for the
    balancing engine. *)
Lemma propagate_own_offer_is_not_fatal :
  BalancingMarket.offers (source Demo.world_own_offer) !! "o1"
    = Some Demo.own_offer
  ∧ Offer.seller Demo.own_offer = owner_name Demo.owner
  ∧ offer_age (engine Demo.world_own_offer) !! "o1" = Some 0%Z
  ∧ snd (propagate_offer Demo.owner 5 Demo.world_own_offer) = inr tt
  ∧ snd (BalancingEngine.propagate_offer Demo.owner 5 Demo.world_own_offer)
    = inr tt
  ∧ ¬ (∃ e, snd (propagate_offer Demo.owner 5 Demo.world_own_offer) = inl e).
Proof.
  repeat split; try (vm_compute; reflexivity).
  intros [e H]. vm_compute in H. discriminate H.
Qed.

(** C3.  Take a record that the engines make (the mirror copies the
    price and the energy of the source offer, or both are spot offers
    of positive energy whose prices are not negative) and a trade of
    its mirror in the target market.  The assertion of
    [event_offer_traded], which compares the magnitudes of the rates,
    passes exactly when [source_rate <= target_rate + tolerance]; when
    the inequality fails the handler stops with [AssertionError] and
    changes nothing; whenever the handler returns normally the
    inequality holds; and for a mirror that copies the price and the
    energy it holds without condition. *)
Theorem forwarded_offer_traded_rate_order owner trade info (w : World) :
  (0 <= FLOATING_POINT_TOLERANCE owner)%Q →
  forwarded_offers (engine w) !! Offer.id (BalancingTrade.offer_bid trade)
    = Some info →
  Offer.id (BalancingTrade.offer_bid trade) = Offer.id (target_offer info) →
  ¬ (Offer.energy (source_offer info) == 0)%Q →
  ¬ (Offer.energy (target_offer info) == 0)%Q →
  recorded_by_forwarding info →
  let source_rate :=
    (Offer.price (source_offer info) / Offer.energy (source_offer info))%Q in
  let target_rate :=
    (Offer.price (target_offer info) / Offer.energy (target_offer info))%Q in
  (Qle_bool (Qabs source_rate)
     (Qabs target_rate + FLOATING_POINT_TOLERANCE owner) = true
   ↔ (source_rate <= target_rate + FLOATING_POINT_TOLERANCE owner)%Q)
  ∧ (¬ (source_rate <= target_rate + FLOATING_POINT_TOLERANCE owner)%Q →
     event_offer_traded owner trade w = (w, inl AssertionError))
  ∧ (∀ w', event_offer_traded owner trade w = (w', inr tt) →
       (source_rate <= target_rate + FLOATING_POINT_TOLERANCE owner)%Q)
  ∧ (Offer.price (target_offer info) = Offer.price (source_offer info) →
     Offer.energy (target_offer info) = Offer.energy (source_offer info) →
     (source_rate <= target_rate + FLOATING_POINT_TOLERANCE owner)%Q).
Proof.
  intros Htol Hfo Hid Hs Ht Hrec. cbn zeta.
  pose proof (recorded_rate_check owner info Htol Hrec) as Hcheck.
  split; [|split; [|split]].
  - rewrite Qle_bool_iff. exact Hcheck.
  - intros Hviol.
    apply (event_offer_traded_rate_violation owner trade info w Hfo Hid Hs Ht).
    apply Qnot_le_lt. intros Hle. apply Hviol, Hcheck, Hle.
  - intros w' H. apply Hcheck.
    exact (event_offer_traded_rate_checked owner trade info w w'
             Hfo Hid Hs Ht H).
  - intros Hp He.
    apply (recorded_rate_check owner info Htol (or_introl (conj Hp He))).
    rewrite Hp, He.
    rewrite <- (Qplus_0_r (Qabs _)) at 1.
    apply Qplus_le_r. exact Htol.
Qed.

Lemma forwarded_offer_traded_rate_order_witness :
  (* the mirror "t1" copies "s1": the trade is handled *)
  (∃ w', event_offer_traded Demo.owner (Demo.trade_of Demo.T1)
           Demo.world_mirror_bought = (w', inr tt))
  ∧ (Offer.price Demo.S1 / Offer.energy Demo.S1
     <= Offer.price Demo.T1 / Offer.energy Demo.T1
        + FLOATING_POINT_TOLERANCE Demo.owner)%Q
  (* the mirror at half the rate: the violation halts the step *)
  ∧ ¬ (Offer.price Demo.S1 / Offer.energy Demo.S1
       <= Offer.price Demo.T_half / Offer.energy Demo.T_half
          + FLOATING_POINT_TOLERANCE Demo.owner)%Q
  ∧ event_offer_traded Demo.owner (Demo.trade_of Demo.T_half)
      Demo.world_half_rate
    = (Demo.world_half_rate, inl AssertionError).
Proof.
  assert (event_offer_traded Demo.owner (Demo.trade_of Demo.T1)
            Demo.world_mirror_bought
          = (fst (event_offer_traded Demo.owner (Demo.trade_of Demo.T1)
                    Demo.world_mirror_bought), inr tt)) as Hrun
    by (vm_compute; reflexivity).
  assert (¬ (Offer.price Demo.S1 / Offer.energy Demo.S1
             <= Offer.price Demo.T_half / Offer.energy Demo.T_half
                + FLOATING_POINT_TOLERANCE Demo.owner)%Q) as Hviol
    by (vm_compute; intros H; apply H; reflexivity).
  split; [eexists; exact Hrun|].
  split.
  - refine (proj1 (proj2 (proj2
      (forwarded_offer_traded_rate_order Demo.owner (Demo.trade_of Demo.T1)
         (mkOfferInfo Demo.S1 Demo.T1) Demo.world_mirror_bought
         _ _ _ _ _ _))) _ Hrun).
    + vm_compute. intros H. discriminate H.
    + vm_compute. reflexivity.
    + reflexivity.
    + intros H. vm_compute in H. discriminate H.
    + intros H. vm_compute in H. discriminate H.
    + left. split; reflexivity.
  - split; [exact Hviol|].
    refine (proj1 (proj2
      (forwarded_offer_traded_rate_order Demo.owner (Demo.trade_of Demo.T_half)
         (mkOfferInfo Demo.S1 Demo.T_half) Demo.world_half_rate
         _ _ _ _ _ _)) Hviol).
    + vm_compute. intros H. discriminate H.
    + vm_compute. reflexivity.
    + reflexivity.
    + intros H. vm_compute in H. discriminate H.
    + intros H. vm_compute in H. discriminate H.
    + right. repeat split; vm_compute; try reflexivity;
        intros H; discriminate H.
Defined.

(** C6, as the code has it.  Take a record stored under both ids.
    - A trade on the source side whose target mirror is already gone:
      [event_offer_traded] absorbs [OfferNotFoundException] and removes
      the record and the age entry.
    - The deletion of the source offer whose target mirror is already
      gone: [event_offer_deleted] absorbs [OfferNotFoundException]; the
      age entry is dropped.
    - A trade on the target side whose source offer is already gone:
      [event_offer_traded] raises [OfferNotFoundException] again. *)
Theorem offer_not_found_in_reconciliation owner info trade_s trade_t
    (w w_del w_del' w_acc : World) :
  forwarded_offers (engine w) !! Offer.id (source_offer info) = Some info →
  forwarded_offers (engine w) !! Offer.id (target_offer info) = Some info →
  Offer.id (source_offer info) ≠ Offer.id (target_offer info) →
  (* the trade on the source side *)
  Offer.id (BalancingTrade.offer_bid trade_s) = Offer.id (source_offer info) →
  delete_offer owner (target_offer info) w
    = (w_del, inl OfferNotFoundException) →
  forwarded_offers (engine w_del) = forwarded_offers (engine w) →
  (* the deletion of the source offer *)
  delete_offer owner (target_offer info)
    (set_engine (set_offer_age (delete (Offer.id (source_offer info)))) w)
    = (w_del', inl OfferNotFoundException) →
  offer_age (engine w_del')
    = delete (Offer.id (source_offer info)) (offer_age (engine w)) →
  (* the trade on the target side *)
  Offer.id (BalancingTrade.offer_bid trade_t) = Offer.id (target_offer info) →
  ¬ (Offer.energy (source_offer info) == 0)%Q →
  ¬ (Offer.energy (target_offer info) == 0)%Q →
  ¬ (Offer.energy (BalancingTrade.offer_bid trade_t) == 0)%Q →
  (Qabs (Offer.price (source_offer info) / Offer.energy (source_offer info))
   <= Qabs (Offer.price (target_offer info) / Offer.energy (target_offer info))
      + FLOATING_POINT_TOLERANCE owner)%Q →
  (∀ rate info',
     accept_offer owner (source_offer info)
       (Offer.energy (BalancingTrade.offer_bid trade_t)) (owner_name owner)
       rate info' (BalancingTrade.buyer_origin trade_t)
       (BalancingTrade.buyer_origin_id trade_t) (Some (owner_uuid owner)) w
     = (w_acc, inl OfferNotFoundException)) →
  (∃ w', event_offer_traded owner trade_s w = (w', inr tt)
         ∧ forwarded_offers (engine w') !! Offer.id (source_offer info) = None
         ∧ forwarded_offers (engine w') !! Offer.id (target_offer info) = None
         ∧ offer_age (engine w') !! Offer.id (source_offer info) = None)
  ∧ (event_offer_deleted owner (source_offer info) w = (w_del', inr tt)
     ∧ offer_age (engine w_del') !! Offer.id (source_offer info) = None)
  ∧ event_offer_traded owner trade_t w = (w_acc, inl OfferNotFoundException).
Proof.
  intros Hs Ht Hne Hts Hdel Hsame Hdel' Hage Htt HEs HEt HEb Hle Hacc.
  split; [|split; [split|]].
  - apply event_offer_traded_source_side_absorbs with (w1 := w_del);
      try assumption; rewrite Hts; assumption.
  - apply event_offer_deleted_absorbs with (info := info);
      [assumption|reflexivity|assumption].
  - rewrite Hage. apply lookup_delete_eq.
  - apply event_offer_traded_target_side_reraises with (info := info);
      try assumption. rewrite Htt. assumption.
Qed.

Lemma offer_not_found_in_reconciliation_witness :
  let info := mkOfferInfo Demo.S1 Demo.T1 in
  let w := Demo.world_both_gone in
  (∃ w', event_offer_traded Demo.owner (Demo.trade_of Demo.S1) w = (w', inr tt)
         ∧ forwarded_offers (engine w') !! "s1" = None
         ∧ forwarded_offers (engine w') !! "t1" = None
         ∧ offer_age (engine w') !! "s1" = None)
  ∧ (event_offer_deleted Demo.owner Demo.S1 w
     = (set_engine (set_offer_age (delete "s1")) w, inr tt)
     ∧ offer_age (engine (set_engine (set_offer_age (delete "s1")) w)) !! "s1"
       = None)
  ∧ event_offer_traded Demo.owner (Demo.trade_of Demo.T1) w
    = (w, inl OfferNotFoundException).
Proof.
  apply (offer_not_found_in_reconciliation Demo.owner
           (mkOfferInfo Demo.S1 Demo.T1) (Demo.trade_of Demo.S1)
           (Demo.trade_of Demo.T1) Demo.world_both_gone Demo.world_both_gone
           (set_engine (set_offer_age (delete "s1")) Demo.world_both_gone)
           Demo.world_both_gone).
  - vm_compute. reflexivity.
  - vm_compute. reflexivity.
  - intros H. discriminate H.
  - reflexivity.
  - vm_compute. reflexivity.
  - reflexivity.
  - vm_compute. reflexivity.
  - reflexivity.
  - reflexivity.
  - intros H. vm_compute in H. discriminate H.
  - intros H. vm_compute in H. discriminate H.
  - intros H. vm_compute in H. discriminate H.
  - vm_compute. intros H. discriminate H.
  - intros rate info'. vm_compute. reflexivity.
Defined.

(** C6 as stated fails in two places.  In [Demo.world_source_gone] the
    mirror "t1" is traded in the target market and the source offer "s1"
    is already gone: the purchase in the source market raises
    [OfferNotFoundException], [event_offer_traded] raises it again, and
    the record and the age entry stay.  In [Demo.world_both_gone] the
    source offer "s1" is deleted and its mirror is already gone:
    [event_offer_deleted] absorbs the exception, and the record stays
    under both ids. *)
Lemma offer_not_found_is_not_always_absorbed :
  let info := mkOfferInfo Demo.S1 Demo.T1 in
  let traded :=
    event_offer_traded Demo.owner (Demo.trade_of Demo.T1)
      Demo.world_source_gone in
  let deleted := event_offer_deleted Demo.owner Demo.S1 Demo.world_both_gone in
  (snd traded = inl OfferNotFoundException
   ∧ forwarded_offers (engine (fst traded)) !! "s1" = Some info
   ∧ forwarded_offers (engine (fst traded)) !! "t1" = Some info
   ∧ offer_age (engine (fst traded)) !! "s1" = Some 0%Z)
  ∧ (snd deleted = inr tt
     ∧ forwarded_offers (engine (fst deleted)) !! "s1" = Some info
     ∧ forwarded_offers (engine (fst deleted)) !! "t1" = Some info).
Proof.
  cbn zeta. repeat split; vm_compute; reflexivity.
Qed.

End EngineClaims.

(** * Further properties of the balancing market *)

Section Frames.
Context {S : Type} (R : S → S → Prop) `{!PreOrder R}.

Lemma preserves_ret {A} (a : A) : preserves R (ret a).
Proof. intros s. reflexivity. Qed.

Lemma preserves_raise {A} e : preserves R (raise (A := A) e).
Proof. intros s. reflexivity. Qed.

Lemma preserves_get : preserves R get.
Proof. intros s. reflexivity. Qed.

Lemma preserves_lift {A} (r : exn + A) : preserves R (lift r).
Proof. intros s. reflexivity. Qed.

Lemma preserves_assert b : preserves R (py_assert b).
Proof. intros s. destruct b; reflexivity. Qed.

Lemma preserves_modify f : (∀ s, R s (f s)) → preserves R (modify f).
Proof. intros H s. apply H. Qed.

Lemma preserves_bind {A B} (c : M S A) (k : A → M S B) :
  preserves R c → (∀ a, preserves R (k a)) → preserves R (bind c k).
Proof.
  intros Hc Hk s. unfold bind. specialize (Hc s).
  destruct (c s) as [s' [e|a]]; cbn in *; [exact Hc|].
  etransitivity; [exact Hc|apply Hk].
Qed.

Lemma preserves_try_except {A} (c : M S A) h :
  preserves R c → (∀ e, preserves R (h e)) → preserves R (try_except c h).
Proof.
  intros Hc Hh s. unfold try_except. specialize (Hc s).
  destruct (c s) as [s' [e|a]]; cbn in *; [|exact Hc].
  etransitivity; [exact Hc|apply Hh].
Qed.
End Frames.

Section MarketExtras.
Import BalancingMarket.
Variable env : MarketEnv.

#[local] Instance same_settings_preorder : PreOrder same_settings.
Proof.
  split.
  - intros m. repeat split.
  - intros m1 m2 m3 (?&?&?&?&?) (?&?&?&?&?). repeat split; congruence.
Qed.

Ltac frame :=
  repeat first
    [ apply preserves_ret; apply _ | apply preserves_raise; apply _
    | apply preserves_get; apply _ | apply preserves_lift; apply _
    | apply preserves_assert; apply _
    | apply preserves_modify; intros ?; repeat split; reflexivity
    | apply preserves_modify; intros ?; repeat case_match; repeat split; reflexivity
    | apply preserves_bind; [apply _| |intros ?]
    | apply preserves_try_except; [apply _| |intros ?]
    | match goal with
      | |- preserves _ (if ?b then _ else _) => destruct b
      | |- preserves _ (match ?x with _ => _ end) => destruct x
      end ].

Lemma balancing_offer_settings price energy seller op oid fa ad de so at_ rq :
  preserves same_settings
    (balancing_offer env price energy seller op oid fa ad de so at_ rq).
Proof. unfold balancing_offer, _notify_listeners. frame. Qed.

Lemma split_offer_settings o e p :
  preserves same_settings (split_offer env o e p).
Proof.
  unfold split_offer, _notify_listeners.
  frame; apply balancing_offer_settings.
Qed.

Lemma accept_offer_settings ooi buyer e at_ tr tbi bo boi bi :
  preserves same_settings
    (BalancingMarket.accept_offer env ooi buyer e at_ tr tbi bo boi bi).
Proof.
  unfold BalancingMarket.accept_offer, accept_offer_try, handle_blockchain_trade_event,
    _update_stats_after_trade, _update_accumulated_trade_price_energy,
    determine_offer_price, _notify_listeners.
  frame; try apply split_offer_settings.
Qed.

Lemma delete_balancing_offer_settings ooi :
  preserves same_settings (delete_balancing_offer ooi).
Proof. unfold delete_balancing_offer, _notify_listeners. frame. Qed.

(** X1.  No method of the market changes its settings: after
    [balancing_offer], [split_offer], [accept_offer] or
    [delete_balancing_offer], whether the call returns or raises, the
    [readonly] flag, the clock, the time slot and the fee
    configuration are the ones before the call. *)
Theorem market_methods_keep_settings price energy seller original_price
    offer_id from_agent adapt_price_with_fees dispatch_event seller_origin
    attributes requirements original_offer split_energy orig_offer_price
    offer_or_id buyer accept_energy already_tracked trade_rate trade_bid_info
    buyer_origin buyer_origin_id buyer_id (m : BalancingMarket.t) :
  same_settings m
    (fst (balancing_offer env price energy seller original_price offer_id
            from_agent adapt_price_with_fees dispatch_event seller_origin
            attributes requirements m))
  ∧ same_settings m
      (fst (split_offer env original_offer split_energy orig_offer_price m))
  ∧ same_settings m
      (fst (BalancingMarket.accept_offer env offer_or_id buyer accept_energy
              already_tracked trade_rate trade_bid_info buyer_origin
              buyer_origin_id buyer_id m))
  ∧ same_settings m (fst (delete_balancing_offer offer_or_id m)).
Proof.
  split; [apply balancing_offer_settings|].
  split; [apply split_offer_settings|].
  split; [apply accept_offer_settings|apply delete_balancing_offer_settings].
Qed.

(** X2.  [balancing_offer] checks, in this order, the device registry
    (unless the call comes from an agent), the [readonly] flag and the
    energy: the error raised is the first check that fails, the call
    returns an offer exactly when all three pass, and a call that raises
    leaves the market as it was. *)
Theorem balancing_offer_checks price energy seller original_price offer_id
    from_agent adapt_price_with_fees dispatch_event seller_origin attributes
    requirements (m : BalancingMarket.t) :
  let r := balancing_offer env price energy seller original_price offer_id
             from_agent adapt_price_with_fees dispatch_event seller_origin
             attributes requirements m in
  let allowed := seller ∈ REGISTRY env ∨ from_agent = true in
  (snd r = inl DeviceNotInRegistryError ↔ ¬ allowed)
  ∧ (snd r = inl MarketReadOnlyException ↔ allowed ∧ readonly m = true)
  ∧ (snd r = inl InvalidOffer
     ↔ allowed ∧ readonly m = false ∧ (energy == 0)%Q)
  ∧ ((∃ o, snd r = inr o)
     ↔ allowed ∧ readonly m = false ∧ ¬ (energy == 0)%Q)
  ∧ (∀ e, snd r = inl e → fst r = m).
Proof.
  cbn zeta. unfold balancing_offer. rewrite bind_get.
  assert ((negb (bool_decide (seller ∈ REGISTRY env)) && negb from_agent = true
           ∧ ¬ (seller ∈ REGISTRY env ∨ from_agent = true))
          ∨ (negb (bool_decide (seller ∈ REGISTRY env)) && negb from_agent = false
             ∧ (seller ∈ REGISTRY env ∨ from_agent = true))) as [[-> Hna]|[-> Ha]].
  { destruct from_agent; [right; split; [apply andb_false_r|tauto]|].
    destruct (bool_decide (seller ∈ REGISTRY env)) eqn:Hreg.
    - apply bool_decide_eq_true in Hreg. right. split; [reflexivity|tauto].
    - apply bool_decide_eq_false in Hreg. left. split; [reflexivity|].
      intros [H|H]; [tauto|discriminate H]. }
  - cbn. repeat split; try tauto; try discriminate; intros;
      try (destruct H as [? H]; discriminate H);
      try (exfalso; tauto).
  - destruct (readonly m) eqn:Hro.
    + cbn. repeat split; try tauto; try discriminate; intros;
        try (destruct H as [? H]; discriminate H);
        try (exfalso; intuition congruence).
    + destruct (Qeq_bool energy 0) eqn:He.
      * apply Qeq_bool_iff in He.
        cbn. repeat split; try tauto; try discriminate; intros;
          try (destruct H as [? H]; discriminate H);
          try (exfalso; intuition congruence).
      * apply Qeq_bool_false in He. unfold _notify_listeners.
        rewrite !bind_modify.
        destruct dispatch_event; rewrite ?bind_modify, ?bind_ret;
          cbn; repeat split; try tauto; try discriminate; intros;
          try (exfalso; intuition congruence); eauto.
Qed.

(** X3.  Submitting an offer under an id that the book does not hold and
    deleting it again gives the book back: the delete succeeds, the
    offers are those before the submission, and the log gains the
    notification of the offer followed by the notification of its
    deletion. *)
Theorem balancing_offer_then_delete price energy seller original_price
    offer_id from_agent adapt_price_with_fees seller_origin attributes
    requirements (m : BalancingMarket.t) :
  (seller ∈ REGISTRY env ∨ from_agent = true) →
  readonly m = false → ¬ (energy == 0)%Q →
  offers m !! match offer_id with
              | None => uuid4 env (known_ids m)
              | Some i => i
              end = None →
  ∃ o m1 m2,
    balancing_offer env price energy seller original_price offer_id
      from_agent adapt_price_with_fees true seller_origin attributes
      requirements m = (m1, inr o)
    ∧ offers m1 !! Offer.id o = Some o
    ∧ delete_balancing_offer (inr o) m1 = (m2, inr tt)
    ∧ offers m2 = offers m
    ∧ notifications m2
      = notifications m ++ [BALANCING_OFFER o; BALANCING_OFFER_DELETED o].
Proof.
  intros Hallowed Hro He Hnew.
  eexists _, _, _. split.
  - unfold balancing_offer. rewrite bind_get.
    assert (negb (bool_decide (seller ∈ REGISTRY env)) && negb from_agent
            = false) as ->.
    { destruct Hallowed as [H| ->]; [|apply andb_false_r].
      rewrite (bool_decide_eq_true_2 _ H). reflexivity. }
    rewrite Hro. apply Qeq_bool_false in He. rewrite He.
    unfold _notify_listeners. rewrite !bind_modify. reflexivity.
  - split; [apply lookup_insert_eq|].
    split.
    + unfold delete_balancing_offer. rewrite bind_get.
      cbn [readonly set_notifications set_offer_history set_offers].
      rewrite Hro, bind_modify.
      cbn [offers set_notifications set_offer_history set_offers].
      rewrite lookup_insert_eq.
      unfold _notify_listeners, modify. reflexivity.
    + cbn. rewrite <- app_assoc. split; [|reflexivity].
      rewrite delete_insert_id by exact Hnew. reflexivity.
Qed.

Lemma set_offers_delete_absent k (m : BalancingMarket.t) :
  offers m !! k = None → set_offers (delete k) m = m.
Proof.
  intros H. destruct m; cbn in *. unfold set_offers; cbn.
  rewrite (delete_id _ _ H). reflexivity.
Qed.

(** X4.  [delete_balancing_offer] on a writable market: an id that the
    book does not hold raises [OfferNotFoundException] and changes
    nothing; an id that it holds is removed, with one notification, and
    deleting it a second time raises [OfferNotFoundException]. *)
Theorem delete_balancing_offer_once k (m : BalancingMarket.t) :
  readonly m = false →
  (offers m !! k = None →
   delete_balancing_offer (inl k) m = (m, inl OfferNotFoundException))
  ∧ (∀ o, offers m !! k = Some o →
       ∃ m', delete_balancing_offer (inl k) m = (m', inr tt)
             ∧ offers m' = delete k (offers m)
             ∧ notifications m' = notifications m ++ [BALANCING_OFFER_DELETED o]
             ∧ delete_balancing_offer (inl k) m'
               = (m', inl OfferNotFoundException)).
Proof.
  intros Hro. split.
  - intros Hk. unfold delete_balancing_offer.
    rewrite bind_get, Hro, bind_modify, Hk.
    rewrite (set_offers_delete_absent _ _ Hk). reflexivity.
  - intros o Hk. eexists. split; [|split; [|split]].
    + unfold delete_balancing_offer.
      rewrite bind_get, Hro, bind_modify, Hk. reflexivity.
    + reflexivity.
    + reflexivity.
    + unfold delete_balancing_offer. rewrite bind_get.
      cbn [readonly set_notifications set_offers]. rewrite Hro, bind_modify.
      cbn [offers set_notifications set_offers].
      rewrite lookup_delete_eq. unfold raise. f_equal.
      cbn. unfold set_offers, set_notifications. cbn.
      rewrite delete_delete_eq. reflexivity.
Qed.

(** X5.  On a read-only market [accept_offer] and
    [delete_balancing_offer] raise [MarketReadOnlyException] whatever
    the id, and [balancing_offer] raises it for a registered seller or
    an agent; the market is unchanged.  [split_offer] has no guard of
    its own: it raises [MarketReadOnlyException] from its first call to
    [balancing_offer], after it has removed the original offer from
    the book. *)
Theorem readonly_market_guards price energy seller original_price offer_id
    from_agent adapt_price_with_fees dispatch_event seller_origin attributes
    requirements offer_or_id buyer accept_energy already_tracked trade_rate
    trade_bid_info buyer_origin buyer_origin_id buyer_id original_offer
    split_energy orig_offer_price (m : BalancingMarket.t) :
  readonly m = true →
  (seller ∈ REGISTRY env ∨ from_agent = true) →
  ¬ (Offer.energy original_offer == 0)%Q →
  BalancingMarket.accept_offer env offer_or_id buyer accept_energy
    already_tracked trade_rate trade_bid_info buyer_origin buyer_origin_id
    buyer_id m = (m, inl MarketReadOnlyException)
  ∧ delete_balancing_offer offer_or_id m = (m, inl MarketReadOnlyException)
  ∧ balancing_offer env price energy seller original_price offer_id
      from_agent adapt_price_with_fees dispatch_event seller_origin
      attributes requirements m = (m, inl MarketReadOnlyException)
  ∧ split_offer env original_offer split_energy orig_offer_price m
    = (set_offers (delete (Offer.id original_offer)) m,
       inl MarketReadOnlyException).
Proof.
  intros Hro Hallowed HE. split; [|split; [|split]].
  - unfold BalancingMarket.accept_offer. rewrite bind_get, Hro. reflexivity.
  - unfold delete_balancing_offer. rewrite bind_get, Hro. reflexivity.
  - unfold balancing_offer. rewrite bind_get.
    assert (negb (bool_decide (seller ∈ REGISTRY env)) && negb from_agent
            = false) as ->.
    { destruct Hallowed as [H| ->]; [|apply andb_false_r].
      rewrite (bool_decide_eq_true_2 _ H). reflexivity. }
    rewrite Hro. reflexivity.
  - unfold split_offer.
    rewrite bind_modify, (py_div_ok _ _ HE), bind_lift_inr.
    erewrite bind_inl; [reflexivity|].
    unfold balancing_offer. rewrite bind_get. cbn [negb andb readonly set_offers].
    rewrite andb_false_r, Hro. reflexivity.
Qed.

(** X6.  An offer is accepted at most once: on a writable market
    [accept_offer] of an id that the book does not hold raises
    [OfferNotFoundException] and changes nothing, and after a full match
    has returned its trade, accepting the same id again raises
    [OfferNotFoundException]. *)
Theorem accept_offer_at_most_once k buyer e already_tracked trade_rate
    trade_bid_info buyer_origin buyer_origin_id buyer_id
    (m : BalancingMarket.t) :
  readonly m = false →
  (offers m !! k = None →
   BalancingMarket.accept_offer env (inl k) buyer e already_tracked trade_rate
     trade_bid_info buyer_origin buyer_origin_id buyer_id m
   = (m, inl OfferNotFoundException))
  ∧ (∀ o x, offers m !! k = Some o → Offer.id o = k →
       ¬ (Offer.energy o == 0)%Q → ¬ opposite_signs (Offer.energy o) x →
       ¬ (x == 0)%Q → (Qabs x == Qabs (Offer.energy o))%Q →
       ∃ m' trade,
         BalancingMarket.accept_offer env (inl k) buyer (Some x) false
           trade_rate trade_bid_info buyer_origin buyer_origin_id buyer_id m
         = (m', inr trade)
         ∧ BalancingMarket.accept_offer env (inl k) buyer e already_tracked
             trade_rate trade_bid_info buyer_origin buyer_origin_id buyer_id m'
           = (m', inl OfferNotFoundException)).
Proof.
  intros Hro.
  assert (∀ m0 : BalancingMarket.t, readonly m0 = false →
            offers m0 !! k = None →
            BalancingMarket.accept_offer env (inl k) buyer e already_tracked
              trade_rate trade_bid_info buyer_origin buyer_origin_id buyer_id m0
            = (m0, inl OfferNotFoundException)) as Hmissing.
  { intros m0 Hro0 Hk. unfold BalancingMarket.accept_offer.
    rewrite bind_get, Hro0, Hk. reflexivity. }
  split; [apply Hmissing; exact Hro|].
  intros o x Hk Hid HE Hs Hx Habs.
  destruct (accept_offer_full env k o buyer x trade_rate trade_bid_info
              buyer_origin buyer_origin_id buyer_id m Hro Hk Hid HE Hs Hx Habs)
    as (m' & trade & Hacc & _ & _ & Hoff & _).
  exists m', trade. split; [exact Hacc|].
  apply Hmissing.
  - pose proof (accept_offer_settings (inl k) buyer (Some x) false trade_rate
                  trade_bid_info buyer_origin buyer_origin_id buyer_id m)
      as (Hr & _).
    rewrite Hacc in Hr. cbn in Hr. congruence.
  - rewrite Hoff. apply lookup_delete_eq.
Qed.


(** X8.  With an explicit energy, on a writable market and for an offer
    of non-zero energy stored under its id, [accept_offer] raises
    [InvalidBalancingTradeException] exactly when the requested energy
    is zero, has the sign opposite to the offer's, or exceeds the offer
    in magnitude. *)
Theorem accept_offer_invalid_trade_cases k o buyer e already_tracked
    trade_rate trade_bid_info buyer_origin buyer_origin_id buyer_id
    (m : BalancingMarket.t) :
  (∀ X, uuid4 env X ∉ X) →
  readonly m = false → offers m !! k = Some o → Offer.id o = k →
  ¬ (Offer.energy o == 0)%Q →
  snd (BalancingMarket.accept_offer env (inl k) buyer (Some e) already_tracked
         trade_rate trade_bid_info buyer_origin buyer_origin_id buyer_id m)
    = inl InvalidBalancingTradeException
  ↔ ((e == 0)%Q ∨ opposite_signs (Offer.energy o) e
     ∨ (Qabs (Offer.energy o) < Qabs e)%Q).
Proof.
  intros Hfresh Hro Hk Hid HE.
  apply accept_offer_invalid_trade_iff; assumption.
Qed.

(** X9.  A full match with an explicit energy (the energy of the offer,
    [already_tracked=False]) returns a trade without residual: the
    traded offer is the original one with its price replaced by the
    trade price of the fee policy, the fee of the trade is the fee of
    the policy, the seller is the seller of the offer, the offer leaves
    the book, the trade is appended to the trades and its notification
    is the only one emitted. *)
Theorem accept_offer_full_match k o buyer e trade_rate trade_bid_info
    buyer_origin buyer_origin_id buyer_id (m : BalancingMarket.t) :
  readonly m = false → offers m !! k = Some o → Offer.id o = k →
  ¬ (Offer.energy o == 0)%Q → ¬ opposite_signs (Offer.energy o) e →
  ¬ (e == 0)%Q → (Qabs e == Qabs (Offer.energy o))%Q →
  let policy :=
    _update_offer_fee_and_calculate_final_price env (set_offers (delete k) m)
      e (rate_or_default trade_rate o) 1 (Offer.original_price o) in
  ∃ m' trade,
    BalancingMarket.accept_offer env (inl k) buyer (Some e) false trade_rate
      trade_bid_info buyer_origin buyer_origin_id buyer_id m = (m', inr trade)
    ∧ BalancingTrade.offer_bid trade = Offer.update_price o (snd policy)
    ∧ BalancingTrade.fee_price trade = fst policy
    ∧ BalancingTrade.seller trade = Offer.seller o
    ∧ BalancingTrade.buyer trade = buyer
    ∧ BalancingTrade.residual trade = None
    ∧ offers m' = delete k (offers m)
    ∧ trades m' = trades m ++ [trade]
    ∧ notifications m' = notifications m ++ [BALANCING_TRADE trade].
Proof.
  intros Hro Hk Hid HE Hs He Habs. cbn zeta.
  remember (BalancingMarket.accept_offer env (inl k) buyer (Some e) false
              trade_rate trade_bid_info buyer_origin buyer_origin_id buyer_id m)
    as R eqn:HR.
  unfold BalancingMarket.accept_offer in HR.
  rewrite bind_get, Hro, Hk, bind_modify, (sign_mismatch_compatible _ _ Hs),
    bind_lift_inr, (bind_trade_rate _ _ _ _ HE) in HR.
  erewrite bind_inr in HR.
  2:{ apply try_except_inr. unfold accept_offer_try.
      apply Qeq_bool_false in He. rewrite He.
      assert (Qltb (Qabs e) (Qabs (Offer.energy o)) = false) as ->.
      { apply Qltb_false. rewrite Habs. apply Qle_refl. }
      assert (Qltb (Qabs (Offer.energy o)) (Qabs e) = false) as ->.
      { apply Qltb_false. rewrite Habs. apply Qle_refl. }
      rewrite bind_get. cbn [negb py_unpack_pair]. rewrite bind_lift_inr.
      reflexivity. }
  cbn [fst snd] in HR. rewrite bind_modify in HR.
  erewrite bind_inr in HR; [|reflexivity].
  cbn [fst snd] in HR. rewrite bind_get in HR. cbn [negb] in HR.
  match type of HR with
  | _ = bind (_update_stats_after_trade ?T ?O) _ ?S =>
      destruct (_update_stats_after_trade_spec T O S)
        as (m3 & Hstats & Hoff3 & Hnot3 & Htr3)
  end.
  erewrite bind_inr in HR; [|exact Hstats].
  unfold _notify_listeners in HR.
  rewrite bind_modify in HR. unfold ret in HR. subst R.
  eexists _, _. split; [reflexivity|].
  cbn. rewrite Hoff3, Hnot3, Htr3. cbn. rewrite Hid, delete_delete_eq.
  repeat split; reflexivity.
Qed.

(** The result of a partial acceptance, for both values of
    [already_tracked]. *)
Lemma accept_offer_partial_result k o buyer e tr tbi bo boi bi
    (m : BalancingMarket.t) :
  readonly m = false → offers m !! k = Some o → Offer.id o = k →
  ¬ opposite_signs (Offer.energy o) e → ¬ (e == 0)%Q →
  (Qabs e < Qabs (Offer.energy o))%Q →
  (Offer.price o / Offer.energy o
     <= rate_or_default tr o + BalancingMarket.FLOATING_POINT_TOLERANCE env)%Q →
  ∃ acc res m2 m3 trade,
    split_offer env o e (Some (Offer.original_price o))
      (set_offers (delete k) m) = (m2, inr (acc, res))
    ∧ Offer.energy acc = e
    ∧ Offer.energy res = (Offer.energy o - e)%Q
    ∧ Offer.price res = ((1 - e / Offer.energy o) * Offer.price o)%Q
    ∧ BalancingTrade.offer_bid trade
      = Offer.update_price acc
          (snd (_update_offer_fee_and_calculate_final_price env m2 e
                  (rate_or_default tr o) (e / Offer.energy o)
                  (Offer.original_price o)))
    ∧ BalancingTrade.fee_price trade
      = fst (_update_offer_fee_and_calculate_final_price env m2 e
               (rate_or_default tr o) (e / Offer.energy o)
               (Offer.original_price o))
    ∧ BalancingTrade.residual trade = Some res
    ∧ offers m3 !! Offer.id o = None
    ∧ trades m3 = trades m ∧ traded_energy m3 = traded_energy m
    ∧ notifications m3 = notifications m ++ [BALANCING_OFFER_SPLIT o acc res]
    ∧ ∀ at_,
        BalancingMarket.accept_offer env (inl k) buyer (Some e) at_ tr tbi bo
          boi bi m
        = (set_notifications (λ l, l ++ [BALANCING_TRADE trade])
             (if at_ then m3
              else fst (_update_stats_after_trade trade
                          (BalancingTrade.offer_bid trade) m3)),
           inr trade).
Proof.
  intros Hro Hk Hid Hs He Hlt Hrate.
  destruct (partial_energy_nonzero _ _ Hlt) as [HE HEe].
  assert (readonly (set_offers (delete k) m) = false) as Hro1 by exact Hro.
  destruct (split_offer_spec env o e (Some (_calculate_original_prices o))
              (set_offers (delete k) m) Hro1 HE He HEe)
    as (acc & res & m2 & Hsplit & Hacc & Hres & Hoff & Hnot & _ & _ & _ & _
        & Htr & Hte).
  assert (Offer.id acc = Offer.id o) as Hacc_id by (rewrite Hacc; reflexivity).
  exists acc, res, m2, (set_offers (delete (Offer.id acc)) m2).
  eexists. split; [exact Hsplit|].
  split; [rewrite Hacc; reflexivity|].
  split; [rewrite Hres; reflexivity|].
  split; [rewrite Hres; reflexivity|].
  split; [|split; [|split; [|split; [|split; [|split; [|split]]]]]];
    cycle 7.
  - intros at_. unfold BalancingMarket.accept_offer.
    rewrite bind_get, Hro, Hk, bind_modify, (sign_mismatch_compatible _ _ Hs),
      bind_lift_inr, (bind_trade_rate _ _ _ _ HE).
    erewrite bind_inr.
    2:{ apply try_except_inr. unfold accept_offer_try.
        apply Qeq_bool_false in He. rewrite He.
        apply Qltb_true in Hlt. rewrite Hlt.
        unfold Offer.energy_rate. rewrite (py_div_ok _ _ HE), bind_lift_inr.
        apply Qle_bool_iff in Hrate. rewrite Hrate.
        unfold py_assert. rewrite bind_ret.
        erewrite bind_inr; [|exact Hsplit]. cbn [fst snd].
        rewrite (py_div_ok _ _ HE), bind_lift_inr.
        erewrite bind_inr; [|reflexivity].
        reflexivity. }
    cbn [fst snd]. rewrite bind_modify.
    erewrite bind_inr; [|reflexivity].
    cbn [fst snd]. rewrite bind_get.
    destruct at_; cbn [negb].
    + rewrite bind_ret. unfold _notify_listeners. rewrite bind_modify.
      reflexivity.
    + match goal with
      | |- bind (_update_stats_after_trade ?T ?O) _ ?S = _ =>
          destruct (_update_stats_after_trade_spec T O S)
            as (m4 & Hstats & _)
      end.
      erewrite bind_inr; [|exact Hstats].
      unfold _notify_listeners. rewrite bind_modify.
      cbn [BalancingTrade.offer_bid Offer.update_price Offer.id] in *.
      rewrite Hstats. reflexivity.
  - reflexivity.
  - reflexivity.
  - reflexivity.
  - cbn. rewrite Hacc_id. apply lookup_delete_eq.
  - exact Htr.
  - exact Hte.
  - cbn. rewrite Hnot. reflexivity.
Qed.

(** X10.  A partial acceptance conserves the energy and prices the two
    parts separately: the energy of the traded offer and the energy of
    the residual add up to the energy of the original offer, the
    residual keeps the share (E - e) / E of the price of the original
    offer, and the price and the fee of the trade are those the fee
    policy returns for the requested energy, the trade rate and the
    portion e / E. *)
Theorem partial_acceptance_conserves_energy k o buyer e already_tracked
    trade_rate trade_bid_info buyer_origin buyer_origin_id buyer_id
    (m : BalancingMarket.t) :
  readonly m = false → offers m !! k = Some o → Offer.id o = k →
  ¬ opposite_signs (Offer.energy o) e → ¬ (e == 0)%Q →
  (Qabs e < Qabs (Offer.energy o))%Q →
  (Offer.price o / Offer.energy o
     <= rate_or_default trade_rate o
        + BalancingMarket.FLOATING_POINT_TOLERANCE env)%Q →
  ∃ m' trade residual m2,
    BalancingMarket.accept_offer env (inl k) buyer (Some e) already_tracked
      trade_rate trade_bid_info buyer_origin buyer_origin_id buyer_id m
      = (m', inr trade)
    ∧ BalancingTrade.residual trade = Some residual
    ∧ (Offer.energy (BalancingTrade.offer_bid trade) + Offer.energy residual
       == Offer.energy o)%Q
    ∧ (Offer.price residual
       == (Offer.energy o - e) / Offer.energy o * Offer.price o)%Q
    ∧ m2 = fst (split_offer env o e (Some (Offer.original_price o))
                  (set_offers (delete k) m))
    ∧ (Offer.price (BalancingTrade.offer_bid trade),
       BalancingTrade.fee_price trade)
      = (snd (_update_offer_fee_and_calculate_final_price env m2 e
                (rate_or_default trade_rate o) (e / Offer.energy o)
                (Offer.original_price o)),
         fst (_update_offer_fee_and_calculate_final_price env m2 e
                (rate_or_default trade_rate o) (e / Offer.energy o)
                (Offer.original_price o))).
Proof.
  intros Hro Hk Hid Hs He Hlt Hrate.
  destruct (partial_energy_nonzero _ _ Hlt) as [HE _].
  destruct (accept_offer_partial_result k o buyer e trade_rate trade_bid_info
              buyer_origin buyer_origin_id buyer_id m
              Hro Hk Hid Hs He Hlt Hrate)
    as (acc & res & m2 & m3 & trade & Hsplit & Hea & Her & Hpr & Hob & Hfee
        & Hresid & _ & _ & _ & _ & Hacc).
  eexists _, trade, res, m2. split; [apply Hacc|].
  split; [exact Hresid|].
  split; [rewrite Hob; cbn; rewrite Hea, Her; ring|].
  split; [rewrite Hpr; field; exact HE|].
  split; [rewrite Hsplit; reflexivity|].
  rewrite Hob, Hfee. reflexivity.
Qed.

(** X11.  In a partial acceptance [already_tracked] changes the
    statistics and nothing else: with [True] and with [False] the call
    returns the same trade, leaves the same book and emits the same
    notifications; with [True] the trades and the traded energy of the
    market are untouched, with [False] the trade is appended to the
    trades. *)
Theorem partial_acceptance_already_tracked k o buyer e trade_rate
    trade_bid_info buyer_origin buyer_origin_id buyer_id
    (m : BalancingMarket.t) :
  readonly m = false → offers m !! k = Some o → Offer.id o = k →
  ¬ opposite_signs (Offer.energy o) e → ¬ (e == 0)%Q →
  (Qabs e < Qabs (Offer.energy o))%Q →
  (Offer.price o / Offer.energy o
     <= rate_or_default trade_rate o
        + BalancingMarket.FLOATING_POINT_TOLERANCE env)%Q →
  let accept at_ :=
    BalancingMarket.accept_offer env (inl k) buyer (Some e) at_ trade_rate
      trade_bid_info buyer_origin buyer_origin_id buyer_id m in
  ∃ trade m_tracked m_untracked,
    accept true = (m_tracked, inr trade)
    ∧ accept false = (m_untracked, inr trade)
    ∧ offers m_tracked = offers m_untracked
    ∧ notifications m_tracked = notifications m_untracked
    ∧ trades m_tracked = trades m
    ∧ traded_energy m_tracked = traded_energy m
    ∧ trades m_untracked = trades m ++ [trade].
Proof.
  intros Hro Hk Hid Hs He Hlt Hrate. cbn zeta.
  destruct (accept_offer_partial_result k o buyer e trade_rate trade_bid_info
              buyer_origin buyer_origin_id buyer_id m
              Hro Hk Hid Hs He Hlt Hrate)
    as (acc & res & m2 & m3 & trade & _ & _ & _ & _ & _ & _ & _ & _
        & Htr & Hte & _ & Hacc).
  destruct (_update_stats_after_trade_spec trade
              (BalancingTrade.offer_bid trade) m3)
    as (m4 & Hstats & Hoff4 & Hnot4 & Htr4).
  eexists trade, _, _. split; [apply (Hacc true)|].
  split; [apply (Hacc false)|].
  rewrite Hstats. cbn. rewrite Hoff4, Hnot4, Htr4, Htr.
  repeat split; try reflexivity. exact Hte.
Qed.

(** X12.  [_update_accumulated_trade_price_energy] books a trade on one
    side only: a trade of positive energy adds its price and energy to
    the supply totals, a trade of negative energy adds its price and the
    magnitude of its energy to the demand totals, a trade of zero energy
    changes nothing; the accumulated energies stay non-negative. *)
Theorem accumulated_trade_price_energy_by_sign trade (m : BalancingMarket.t) :
  let o := BalancingTrade.offer_bid trade in
  let m' := fst (_update_accumulated_trade_price_energy trade m) in
  ((0 < Offer.energy o)%Q →
   accumulated_supply_balancing_trade_price m'
     = (accumulated_supply_balancing_trade_price m + Offer.price o)%Q
   ∧ accumulated_supply_balancing_trade_energy m'
     = (accumulated_supply_balancing_trade_energy m + Offer.energy o)%Q
   ∧ accumulated_demand_balancing_trade_price m'
     = accumulated_demand_balancing_trade_price m
   ∧ accumulated_demand_balancing_trade_energy m'
     = accumulated_demand_balancing_trade_energy m)
  ∧ ((Offer.energy o < 0)%Q →
     accumulated_demand_balancing_trade_price m'
       = (accumulated_demand_balancing_trade_price m + Offer.price o)%Q
     ∧ accumulated_demand_balancing_trade_energy m'
       = (accumulated_demand_balancing_trade_energy m
          + Qabs (Offer.energy o))%Q
     ∧ accumulated_supply_balancing_trade_price m'
       = accumulated_supply_balancing_trade_price m
     ∧ accumulated_supply_balancing_trade_energy m'
       = accumulated_supply_balancing_trade_energy m)
  ∧ ((Offer.energy o == 0)%Q → m' = m)
  ∧ ((0 <= accumulated_supply_balancing_trade_energy m)%Q →
     (0 <= accumulated_demand_balancing_trade_energy m)%Q →
     (0 <= accumulated_supply_balancing_trade_energy m')%Q
     ∧ (0 <= accumulated_demand_balancing_trade_energy m')%Q).
Proof.
  cbn zeta. unfold _update_accumulated_trade_price_energy, modify. cbn [fst].
  destruct (Qltb 0 (Offer.energy (BalancingTrade.offer_bid trade))) eqn:Hpos;
    [apply Qltb_true in Hpos|apply Qltb_false in Hpos];
    [|destruct (Qltb (Offer.energy (BalancingTrade.offer_bid trade)) 0) eqn:Hneg;
      [apply Qltb_true in Hneg|apply Qltb_false in Hneg]];
    cbn; repeat split; intros; try reflexivity; try assumption;
    try (exfalso; lra).
  - lra.
  - pose proof (Qabs_nonneg (Offer.energy (BalancingTrade.offer_bid trade))).
    lra.
Qed.
End MarketExtras.

Section MarketExtrasExamples.
Import BalancingMarket.

Lemma balancing_offer_then_delete_witness :
  ∃ o m1 m2,
    balancing_offer (Demo.env "uuid") 3 1 "A" None None false false true
      None None None Demo.market_A = (m1, inr o)
    ∧ offers m1 !! Offer.id o = Some o
    ∧ delete_balancing_offer (inr o) m1 = (m2, inr tt)
    ∧ offers m2 = offers Demo.market_A
    ∧ notifications m2
      = notifications Demo.market_A
        ++ [BALANCING_OFFER o; BALANCING_OFFER_DELETED o].
Proof.
  apply (balancing_offer_then_delete (Demo.env "uuid") 3 1 "A" None None
           false false None None None Demo.market_A).
  - left. vm_compute. reflexivity.
  - reflexivity.
  - intros H. vm_compute in H. discriminate H.
  - vm_compute. reflexivity.
Defined.

Lemma delete_balancing_offer_once_witness :
  delete_balancing_offer (inl "o2") Demo.market_A
    = (Demo.market_A, inl OfferNotFoundException)
  ∧ ∃ m', delete_balancing_offer (inl "o1") Demo.market_A = (m', inr tt)
          ∧ offers m' = delete "o1" (offers Demo.market_A)
          ∧ notifications m'
            = notifications Demo.market_A
              ++ [BALANCING_OFFER_DELETED Demo.offer_A]
          ∧ delete_balancing_offer (inl "o1") m'
            = (m', inl OfferNotFoundException).
Proof.
  split.
  - apply (proj1 (delete_balancing_offer_once "o2" Demo.market_A eq_refl)).
    vm_compute. reflexivity.
  - apply (proj2 (delete_balancing_offer_once "o1" Demo.market_A eq_refl)).
    reflexivity.
Defined.

Lemma readonly_market_guards_witness :
  BalancingMarket.accept_offer (Demo.env "uuid") (inl "o1") "B" (Some 5%Q)
    false None None None None None Demo.closed_market_A
    = (Demo.closed_market_A, inl MarketReadOnlyException)
  ∧ delete_balancing_offer (inl "o1") Demo.closed_market_A
    = (Demo.closed_market_A, inl MarketReadOnlyException)
  ∧ balancing_offer (Demo.env "uuid") 3 1 "A" None None false false true
      None None None Demo.closed_market_A
    = (Demo.closed_market_A, inl MarketReadOnlyException)
  ∧ split_offer (Demo.env "uuid") Demo.offer_A 4 None Demo.closed_market_A
    = (set_offers (delete (Offer.id Demo.offer_A)) Demo.closed_market_A,
       inl MarketReadOnlyException).
Proof.
  apply (readonly_market_guards (Demo.env "uuid") 3 1 "A" None None false
           false true None None None (inl "o1") "B" (Some 5%Q) false None
           None None None None Demo.offer_A 4 None Demo.closed_market_A).
  - reflexivity.
  - left. vm_compute. reflexivity.
  - intros H. vm_compute in H. discriminate H.
Defined.

Lemma not_opposite_10_10 : ¬ opposite_signs 10 10.
Proof. intros [[_ H]|[H _]]; vm_compute in H; discriminate H. Qed.


Lemma accept_offer_at_most_once_witness :
  ∃ m' trade,
    BalancingMarket.accept_offer (Demo.env "uuid") (inl "o1") "B" (Some 10%Q)
      false None None None None None Demo.market_A = (m', inr trade)
    ∧ BalancingMarket.accept_offer (Demo.env "uuid") (inl "o1") "B"
        (Some 10%Q) false None None None None None m'
      = (m', inl OfferNotFoundException).
Proof.
  apply (proj2 (accept_offer_at_most_once (Demo.env "uuid") "o1" "B"
                  (Some 10%Q) false None None None None None Demo.market_A
                  eq_refl) Demo.offer_A 10%Q).
  - reflexivity.
  - reflexivity.
  - intros H. vm_compute in H. discriminate H.
  - exact not_opposite_10_10.
  - intros H. vm_compute in H. discriminate H.
  - reflexivity.
Defined.


Lemma accept_offer_invalid_trade_cases_witness :
  snd (BalancingMarket.accept_offer (Demo.env "uuid") (inl "o1") "B"
         (Some 21%Q) false None None None None None Demo.market_A)
    = inl InvalidBalancingTradeException
  ↔ ((21 == 0)%Q ∨ opposite_signs (Offer.energy Demo.offer_A) 21
     ∨ (Qabs (Offer.energy Demo.offer_A) < Qabs 21)%Q).
Proof.
  apply (accept_offer_invalid_trade_cases (Demo.env "uuid") "o1" Demo.offer_A
           "B" 21 false None None None None None Demo.market_A).
  - intros X. apply fresh_string_of_set_fresh.
  - reflexivity.
  - reflexivity.
  - reflexivity.
  - intros H. vm_compute in H. discriminate H.
Defined.

Lemma accept_offer_full_match_witness :
  ∃ m' trade,
    BalancingMarket.accept_offer (Demo.env "uuid") (inl "o1") "B" (Some 10%Q)
      false None None None None None Demo.market_A = (m', inr trade)
    ∧ BalancingTrade.residual trade = None
    ∧ offers m' = delete "o1" (offers Demo.market_A)
    ∧ trades m' = trades Demo.market_A ++ [trade].
Proof.
  destruct (accept_offer_full_match (Demo.env "uuid") "o1" Demo.offer_A "B"
              10 None None None None None Demo.market_A
              eq_refl eq_refl eq_refl
              ltac:(intros H; vm_compute in H; discriminate H)
              not_opposite_10_10
              ltac:(intros H; vm_compute in H; discriminate H)
              eq_refl)
    as (m' & trade & H1 & _ & _ & _ & _ & H2 & H3 & H4 & _).
  exists m', trade. repeat split; assumption.
Defined.

Lemma partial_acceptance_conserves_energy_witness :
  ∃ m' trade residual,
    BalancingMarket.accept_offer (Demo.env "uuid") (inl "o1") "B" (Some 5%Q)
      false None None None None None Demo.market_A = (m', inr trade)
    ∧ BalancingTrade.residual trade = Some residual
    ∧ (Offer.energy (BalancingTrade.offer_bid trade) + Offer.energy residual
       == Offer.energy Demo.offer_A)%Q.
Proof.
  destruct (partial_acceptance_conserves_energy (Demo.env "uuid") "o1"
              Demo.offer_A "B" 5 false None None None None None Demo.market_A
              eq_refl eq_refl eq_refl not_opposite_10_5
              ltac:(intros H; vm_compute in H; discriminate H)
              eq_refl
              ltac:(vm_compute; intros H; discriminate H))
    as (m' & trade & res & m2 & H1 & H2 & H3 & _).
  exists m', trade, res. repeat split; assumption.
Defined.

Lemma partial_acceptance_already_tracked_witness :
  ∃ trade m_tracked m_untracked,
    BalancingMarket.accept_offer (Demo.env "uuid") (inl "o1") "B" (Some 5%Q)
      true None None None None None Demo.market_A = (m_tracked, inr trade)
    ∧ BalancingMarket.accept_offer (Demo.env "uuid") (inl "o1") "B" (Some 5%Q)
        false None None None None None Demo.market_A
      = (m_untracked, inr trade)
    ∧ offers m_tracked = offers m_untracked
    ∧ notifications m_tracked = notifications m_untracked
    ∧ trades m_tracked = trades Demo.market_A
    ∧ traded_energy m_tracked = traded_energy Demo.market_A
    ∧ trades m_untracked = trades Demo.market_A ++ [trade].
Proof.
  apply (partial_acceptance_already_tracked (Demo.env "uuid") "o1"
           Demo.offer_A "B" 5 None None None None None Demo.market_A).
  - reflexivity.
  - reflexivity.
  - reflexivity.
  - exact not_opposite_10_5.
  - intros H. vm_compute in H. discriminate H.
  - reflexivity.
  - vm_compute. intros H. discriminate H.
Defined.
End MarketExtrasExamples.

(** * Further properties of the forwarding engine *)

Section EngineExtras.
Import IAAEngine.
Variable owner : Owner.

Lemma world_eta (w : World) : mkWorld (engine w) (source w) (target w) = w.
Proof. destruct w. reflexivity. Qed.

(** X13.  A record added for two untracked ids is found under both, and
    deleting the entries of either offer afterwards gives the mapping
    back: [_add_to_forward_offers] followed by
    [_delete_forwarded_offer_entries] restores [forwarded_offers], and
    neither touches the ages or the markets.  The addition keeps the
    pairing of the mapping. *)
Theorem forwarded_offers_add_then_delete (s t : Offer.t) (w : World) :
  forwarded_offers (engine w) !! Offer.id s = None →
  forwarded_offers (engine w) !! Offer.id t = None →
  ∃ w1,
    _add_to_forward_offers s t w = (w1, inr tt)
    ∧ forwarded_offers (engine w1) !! Offer.id s = Some (mkOfferInfo s t)
    ∧ forwarded_offers (engine w1) !! Offer.id t = Some (mkOfferInfo s t)
    ∧ (paired (forwarded_offers (engine w)) →
       paired (forwarded_offers (engine w1)))
    ∧ ∀ o, Offer.id o = Offer.id s ∨ Offer.id o = Offer.id t →
        ∃ w2,
          _delete_forwarded_offer_entries o w1 = (w2, inr tt)
          ∧ forwarded_offers (engine w2) = forwarded_offers (engine w)
          ∧ offer_age (engine w2) = offer_age (engine w)
          ∧ source w2 = source w ∧ target w2 = target w.
Proof.
  intros Hs Ht.
  destruct (_add_to_forward_offers_spec s t w) as (Hadd & Hls & Hlt).
  eexists. split; [exact Hadd|].
  split; [exact Hls|]. split; [exact Hlt|]. split.
  - intros Hp. cbn. apply paired_add; [exact Hp|].
    intros k info [->| ->] Hk; congruence.
  - intros o Ho.
    assert (forwarded_offers (engine (set_engine (set_forwarded_offers
              (λ _, <[Offer.id t := mkOfferInfo s t]>
                      (<[Offer.id s := mkOfferInfo s t]>
                         (forwarded_offers (engine w))))) w)) !! Offer.id o
            = Some (mkOfferInfo s t)) as Hlo.
    { destruct Ho as [-> | ->]; assumption. }
    destruct (_delete_forwarded_offer_entries_spec o _ _ Hlo) as (Hdel & _).
    eexists. split; [exact Hdel|].
    cbn. repeat split; try reflexivity.
    apply map_eq. intros j.
    rewrite !lookup_delete, !lookup_insert.
    repeat case_decide; try reflexivity; try congruence.
    all: destruct Ho; congruence.
Qed.

(** X14.  [BalancingEngine._forward_offer] on a writable target market,
    for an offer of non-zero energy: the mirror is posted with the price
    and the energy of the source offer, the owner's name as seller and
    no seller origin, under a new id; the target market notifies it;
    the pair is recorded under both ids and the source market is
    untouched.  The offer is then tracked: the next iteration of
    [propagate_offer] over it does nothing. *)
Theorem balancing_forward_offer offer current_tick age (w : World) :
  BalancingMarket.readonly (target w) = false →
  ¬ (Offer.energy offer == 0)%Q →
  ∃ mirror w',
    BalancingEngine._forward_offer owner offer w = (w', inr (Some mirror))
    ∧ Offer.id mirror
      = BalancingMarket.uuid4 (target_env owner)
          (BalancingMarket.known_ids (target w))
    ∧ Offer.price mirror = Offer.price offer
    ∧ Offer.energy mirror = Offer.energy offer
    ∧ Offer.seller mirror = owner_name owner
    ∧ Offer.seller_origin mirror = None
    ∧ BalancingMarket.offers (target w')
      = <[Offer.id mirror := mirror]> (BalancingMarket.offers (target w))
    ∧ BalancingMarket.notifications (target w')
      = BalancingMarket.notifications (target w) ++ [BALANCING_OFFER mirror]
    ∧ source w' = source w
    ∧ forwarded_offers (engine w') !! Offer.id offer
      = Some (mkOfferInfo offer mirror)
    ∧ forwarded_offers (engine w') !! Offer.id mirror
      = Some (mkOfferInfo offer mirror)
    ∧ propagate_entry owner (BalancingEngine._forward_offer owner)
        current_tick (Offer.id offer, age) w' = (w', inr tt).
Proof.
  intros Hro He.
  set (mirror := Offer.BalancingOffer
                   (BalancingMarket.uuid4 (target_env owner)
                      (BalancingMarket.known_ids (target w)))
                   (BalancingMarket.now (target w)) (Offer.price offer)
                   (Offer.energy offer) (owner_name owner) None None None
                   (BalancingMarket.time_slot (target w))).
  assert (BalancingMarket.balancing_offer (target_env owner) (Offer.price offer)
            (Offer.energy offer) (owner_name owner) None None true false true
            None None None (target w)
          = (BalancingMarket.set_notifications
               (λ l, l ++ [BALANCING_OFFER mirror])
               (BalancingMarket.set_offer_history (λ h, h ++ [mirror])
                  (BalancingMarket.set_offers
                     (insert (Offer.id mirror) mirror) (target w))),
             inr mirror)) as Hpost.
  { unfold BalancingMarket.balancing_offer. rewrite bind_get.
    rewrite andb_false_r, Hro. apply Qeq_bool_false in He. rewrite He.
    unfold BalancingMarket._notify_listeners. rewrite !bind_modify.
    reflexivity. }
  destruct (_add_to_forward_offers_spec offer mirror
              (mkWorld (engine w) (source w)
                 (BalancingMarket.set_notifications
                    (λ l, l ++ [BALANCING_OFFER mirror])
                    (BalancingMarket.set_offer_history (λ h, h ++ [mirror])
                       (BalancingMarket.set_offers
                          (insert (Offer.id mirror) mirror) (target w))))))
    as (Hadd & Hls & Hlt).
  exists mirror. eexists. split.
  - unfold BalancingEngine._forward_offer.
    erewrite bind_inr; [|unfold on_target; rewrite Hpost; reflexivity].
    cbn [fst snd].
    erewrite bind_inr; [|exact Hadd].
    reflexivity.
  - cbn [fst snd]. repeat split; try exact Hls; try exact Hlt.
    unfold propagate_entry. cbn [fst snd]. rewrite bind_get.
    rewrite bool_decide_eq_true_2; [reflexivity|].
    eexists. exact Hls.
Qed.

(** X15.  [BalancingEngine._forward_offer] does not catch the errors of
    the target market: on a read-only target market it raises
    [MarketReadOnlyException], and for an offer of zero energy on a
    writable one [InvalidOffer]; nothing is posted and no record is
    made. *)
Theorem balancing_forward_offer_raises offer (w : World) :
  BalancingMarket.readonly (target w) = true
  ∨ (Offer.energy offer == 0)%Q →
  BalancingEngine._forward_offer owner offer w
  = (w, inl (if BalancingMarket.readonly (target w)
             then MarketReadOnlyException else InvalidOffer)).
Proof.
  intros H. unfold BalancingEngine._forward_offer.
  erewrite bind_inl; [reflexivity|].
  unfold on_target, BalancingMarket.balancing_offer. rewrite bind_get.
  rewrite andb_false_r.
  destruct (BalancingMarket.readonly (target w)) eqn:Hro.
  - cbn. rewrite world_eta. reflexivity.
  - destruct H as [H|H]; [discriminate H|].
    apply Qeq_bool_iff in H. rewrite H. cbn. rewrite world_eta. reflexivity.
Qed.

(** X16.  [IAAEngine._forward_offer] records nothing unless the offer was
    posted.  An offer of negative price is not forwarded: [None] is
    returned and nothing changes, whatever the owner and the markets
    are ([post_offer] is not called).  For an offer whose price is not
    negative, when [post_offer] (called with the fee-adjusted price, the
    owner's name as seller and the seller origin of the offer) raises,
    no record is added: a market exception is absorbed and [None] is
    returned, any other error is raised. *)
Theorem forward_offer_not_posted offer (w : World) :
  ((Offer.price offer < 0)%Q → _forward_offer owner offer w = (w, inr None))
  ∧ (∀ e w1,
       (0 <= Offer.price offer)%Q →
       ¬ (Offer.energy offer == 0)%Q →
       post_offer owner
         (update_forwarded_offer_with_fee owner
            (Offer.price offer / Offer.energy offer)
            (Offer.original_price offer / Offer.energy offer)
          * Offer.energy offer)%Q
         (Offer.energy offer) (owner_name owner) (Offer.original_price offer)
         false (Offer.seller_origin offer) (Offer.seller_origin_id offer)
         (Some (owner_uuid owner)) w = (w1, inl e) →
       _forward_offer owner offer w
       = (w1, if is_MarketException e then inr None else inl e)).
Proof.
  split.
  - intros Hneg. unfold _forward_offer.
    apply Qltb_true in Hneg. rewrite Hneg. reflexivity.
  - intros e w1 Hp HE Hpost. unfold _forward_offer.
    apply Qltb_false in Hp. rewrite Hp.
    assert (try_except
              (forwarded_offer <- _offer_in_market owner offer ;;
               ret (Some forwarded_offer))
              (λ e, if is_MarketException e then ret None else raise e) w
            = (w1, if is_MarketException e then inr None else inl e)) as Htry.
    { rewrite (try_except_inl _ _ w w1 e);
        [destruct (is_MarketException e); reflexivity|].
      apply bind_inl. unfold _offer_in_market, Offer.energy_rate.
      rewrite (py_div_ok _ _ HE), bind_lift_inr, (py_div_ok _ _ HE),
        bind_lift_inr. exact Hpost. }
    destruct (is_MarketException e).
    + rewrite (bind_inr _ _ w w1 None Htry). reflexivity.
    + apply bind_inl. exact Htry.
Qed.

(** X17.  Events about offers that the engine does not track: a trade of
    an untracked offer and a split of an untracked offer change nothing,
    and the deletion of an untracked offer only drops its age entry;
    none of them raises or calls a market. *)
Theorem events_on_untracked_offers trade offer market_id original_offer
    accepted_offer residual_offer (w : World) :
  (forwarded_offers (engine w) !! Offer.id (BalancingTrade.offer_bid trade)
     = None →
   event_offer_traded owner trade w = (w, inr tt))
  ∧ (forwarded_offers (engine w) !! Offer.id offer = None →
     event_offer_deleted owner offer w
     = (set_engine (set_offer_age (delete (Offer.id offer))) w, inr tt))
  ∧ (forwarded_offers (engine w) !! Offer.id accepted_offer = None →
     event_offer_split owner market_id original_offer accepted_offer
       residual_offer w = (w, inr tt)).
Proof.
  split; [|split]; intros H.
  - unfold event_offer_traded. rewrite bind_get, H. reflexivity.
  - unfold event_offer_deleted. rewrite bind_modify, bind_get.
    cbn [engine set_engine forwarded_offers set_offer_age]. rewrite H.
    reflexivity.
  - unfold event_offer_split. rewrite bind_get, H.
    rewrite bool_decide_eq_false_2 by (intros [? ?]; discriminate).
    destruct (_get_market_from_market_id owner w market_id) as [[]|];
      reflexivity.
Qed.


(** X19.  [event_offer_deleted] for a tracked offer, after its age entry
    was dropped.  When the offer is not the source offer of its record
    (it is the mirror), the handler stops there: the record stays.
    When it is the source offer, the mirror is deleted in the target
    market: on success the record leaves [forwarded_offers] under both
    ids; an error of the deletion leaves the record where it is, a
    market exception is absorbed and any other error is raised. *)
Theorem event_offer_deleted_tracked offer info (w : World) :
  forwarded_offers (engine w) !! Offer.id offer = Some info →
  (Offer.id (source_offer info) ≠ Offer.id offer →
   event_offer_deleted owner offer w
   = (set_engine (set_offer_age (delete (Offer.id offer))) w, inr tt))
  ∧ (Offer.id (source_offer info) = Offer.id offer →
     ∀ w1,
       (delete_offer owner (target_offer info)
          (set_engine (set_offer_age (delete (Offer.id offer))) w)
        = (w1, inr tt) →
        forwarded_offers (engine w1) !! Offer.id (source_offer info)
          = Some info →
        event_offer_deleted owner offer w
        = (set_engine (set_forwarded_offers (λ _,
             delete (Offer.id (source_offer info))
               (delete (Offer.id (target_offer info))
                  (delete (Offer.id (source_offer info))
                     (forwarded_offers (engine w1)))))) w1,
           inr tt))
       ∧ (∀ e,
            delete_offer owner (target_offer info)
              (set_engine (set_offer_age (delete (Offer.id offer))) w)
            = (w1, inl e) →
            event_offer_deleted owner offer w
            = (w1, if is_MarketException e then inr tt else inl e))).
Proof.
  intros Hfo. split.
  - intros Hne. unfold event_offer_deleted.
    rewrite bind_modify, bind_get.
    cbn [engine set_engine forwarded_offers set_offer_age]. rewrite Hfo.
    apply String.eqb_neq in Hne. rewrite Hne. reflexivity.
  - intros Hid w1. split.
    + intros Hdel Hfo1.
      destruct (_delete_forwarded_offer_entries_spec (source_offer info) info
                  w1 Hfo1) as (Hd & _).
      unfold event_offer_deleted. rewrite bind_modify, bind_get.
      cbn [engine set_engine forwarded_offers set_offer_age].
      rewrite Hfo, (proj2 (String.eqb_eq _ _) Hid).
      apply try_except_inr. erewrite bind_inr; [exact Hd|exact Hdel].
    + intros e Hdel. unfold event_offer_deleted.
      rewrite bind_modify, bind_get.
      cbn [engine set_engine forwarded_offers set_offer_age].
      rewrite Hfo, (proj2 (String.eqb_eq _ _) Hid).
      rewrite (try_except_inl _ _ _ w1 e);
        [destruct (is_MarketException e); reflexivity|].
      apply bind_inl. exact Hdel.
Qed.

(** X20.  A split of a tracked mirror in the target market:
    [event_offer_split] splits the source offer of the record in the
    source market at the energy of the accepted part, with the original
    price of the source offer; the accepted part of the source side
    keeps the id of the source offer; the two parts are recorded with
    the two parts of the mirror, the age entry of the original id moves
    to the id of the residual mirror, and the target market is not
    touched.  When the accepted mirror keeps the id of the mirror of the
    record and the ids of the two residual offers are not tracked, the
    pairing of [forwarded_offers] is kept. *)
Theorem event_offer_split_in_target market_id original_offer accepted_offer
    residual_offer info (w : World) :
  _get_market_from_market_id owner w market_id = Some TargetMarket →
  is_Some (forwarded_offers (engine w) !! Offer.id accepted_offer) →
  forwarded_offers (engine w) !! Offer.id original_offer = Some info →
  BalancingMarket.readonly (source w) = false →
  ¬ (Offer.energy (source_offer info) == 0)%Q →
  ¬ (Offer.energy accepted_offer == 0)%Q →
  ¬ (Offer.energy (source_offer info) - Offer.energy accepted_offer == 0)%Q →
  ∃ local_split local_residual w',
    event_offer_split owner market_id original_offer accepted_offer
      residual_offer w = (w', inr tt)
    ∧ BalancingMarket.split_offer (source_env owner) (source_offer info)
        (Offer.energy accepted_offer)
        (Some (Offer.original_price (source_offer info))) (source w)
      = (source w', inr (local_split, local_residual))
    ∧ target w' = target w
    ∧ Offer.id local_split = Offer.id (source_offer info)
    ∧ Offer.energy local_split = Offer.energy accepted_offer
    ∧ Offer.energy local_residual
      = (Offer.energy (source_offer info) - Offer.energy accepted_offer)%Q
    ∧ forwarded_offers (engine w')
      = <[Offer.id accepted_offer := mkOfferInfo local_split accepted_offer]>
          (<[Offer.id local_split := mkOfferInfo local_split accepted_offer]>
             (<[Offer.id residual_offer
                  := mkOfferInfo local_residual residual_offer]>
                (<[Offer.id local_residual
                     := mkOfferInfo local_residual residual_offer]>
                   (forwarded_offers (engine w)))))
    ∧ offer_age (engine w')
      = match offer_age (engine w) !! Offer.id original_offer with
        | None => offer_age (engine w)
        | Some age =>
            <[Offer.id residual_offer := age]>
              (delete (Offer.id original_offer) (offer_age (engine w)))
        end
    ∧ (paired (forwarded_offers (engine w)) →
       Offer.id accepted_offer = Offer.id (target_offer info) →
       forwarded_offers (engine w) !! Offer.id residual_offer = None →
       forwarded_offers (engine w) !! Offer.id local_residual = None →
       paired (forwarded_offers (engine w'))).
Proof.
  intros Hm Htr Hfo Hro HE He HEe.
  destruct (split_offer_spec (source_env owner) (source_offer info)
              (Offer.energy accepted_offer)
              (Some (Offer.original_price (source_offer info))) (source w)
              Hro HE He HEe)
    as (acc & res & m' & Hsplit & Hacc & Hres & _).
  exists acc, res. eexists. split; [|split; [|split; [|split; [|split;
    [|split; [|split; [|split]]]]]]].
  - unfold event_offer_split. rewrite bind_get, Hm.
    rewrite bool_decide_eq_true_2 by exact Htr.
    erewrite bind_inr;
      [|unfold forwarded_offers_getitem; rewrite bind_get, Hfo; reflexivity].
    erewrite bind_inr; [|unfold on_source; rewrite Hsplit; reflexivity].
    cbn [fst snd].
    erewrite bind_inr;
      [|apply (proj1 (_add_to_forward_offers_spec _ _ _))].
    erewrite bind_inr;
      [|apply (proj1 (_add_to_forward_offers_spec _ _ _))].
    reflexivity.
  - cbn. exact Hsplit.
  - reflexivity.
  - rewrite Hacc. reflexivity.
  - rewrite Hacc. reflexivity.
  - rewrite Hres. reflexivity.
  - reflexivity.
  - cbn. destruct (offer_age (engine w) !! Offer.id original_offer);
      reflexivity.
  - intros Hp Hida Hr Hlr. cbn.
    destruct (Hp _ _ Hfo) as (_ & Hps & Hpt).
    assert (Offer.id acc = Offer.id (source_offer info)) as Hida'
      by (rewrite Hacc; reflexivity).
    apply paired_add.
    + apply paired_add; [exact Hp|].
      intros k i [->| ->] Hk; congruence.
    + intros k i Hk Hl.
      assert (k ≠ Offer.id residual_offer ∧ k ≠ Offer.id res) as [Hk1 Hk2].
      { destruct Hk as [->| ->]; rewrite ?Hida', ?Hida; split; congruence. }
      rewrite !lookup_insert_ne in Hl by congruence.
      assert (i = info) as ->.
      { destruct Hk as [->| ->]; rewrite ?Hida', ?Hida in Hl; congruence. }
      rewrite Hida', Hida. auto.
Qed.

(** The first loop of [propagate_offer]: the offers of the list that
    have no age entry get the current tick, the entries that exist are
    kept, and nothing else changes. *)
Lemma propagate_offer_store_ages current_tick
    (l : list (string * Offer.t)) (w : World) :
  ∃ ages',
    for_each l (λ kv,
      w <- get ;;
      if bool_decide (is_Some (offer_age (engine w) !! Offer.id (snd kv)))
      then ret tt
      else modify (set_engine (set_offer_age
                     (insert (Offer.id (snd kv)) current_tick)))) w
    = (set_engine (set_offer_age (λ _, ages')) w, inr tt)
    ∧ ∀ k a, ages' !! k = Some a ↔
        offer_age (engine w) !! k = Some a
        ∨ (offer_age (engine w) !! k = None ∧ a = current_tick
           ∧ ∃ kv, kv ∈ l ∧ Offer.id (snd kv) = k).
Proof.
  revert w. induction l as [|x l IH]; intros w.
  - exists (offer_age (engine w)). split.
    + destruct w as [[] ? ?]. reflexivity.
    + intros k a. split; [auto|].
      intros [H|(_ & _ & kv & Hin & _)]; [exact H|].
      apply elem_of_nil in Hin. destruct Hin.
  - cbn [for_each].
    destruct (offer_age (engine w) !! Offer.id (snd x)) as [ax|] eqn:Hx.
    + erewrite bind_inr.
      2:{ cbn beta. rewrite bind_get, Hx.
          rewrite bool_decide_eq_true_2 by eauto. reflexivity. }
      destruct (IH w) as (ages' & Hrun & Hchar).
      exists ages'. split; [exact Hrun|].
      intros k a. rewrite Hchar. split.
      * intros [H|(Hn & Ha & kv & Hin & Hk)]; [auto|].
        right. repeat split; try assumption.
        exists kv. split; [apply elem_of_cons; auto|exact Hk].
      * intros [H|(Hn & Ha & kv & Hin & Hk)]; [auto|].
        apply elem_of_cons in Hin. destruct Hin as [->|Hin].
        -- congruence.
        -- right. repeat split; try assumption. exists kv. auto.
    + erewrite bind_inr.
      2:{ cbn beta. rewrite bind_get, Hx.
          rewrite bool_decide_eq_false_2 by (intros [? ?]; discriminate).
          reflexivity. }
      destruct (IH (set_engine (set_offer_age
                      (insert (Offer.id (snd x)) current_tick)) w))
        as (ages' & Hrun & Hchar).
      exists ages'. split.
      * rewrite Hrun. destruct w as [[] ? ?]. reflexivity.
      * intros k a. rewrite Hchar.
        cbn [engine set_engine offer_age set_offer_age].
        rewrite !lookup_insert. case_decide as Hk.
        -- subst k. split.
           ++ intros [H|(Hn & _)]; [|discriminate Hn].
              injection H as <-. right. repeat split; [exact Hx|].
              exists x. split; [apply elem_of_cons; auto|reflexivity].
           ++ intros [H|(_ & -> & _)]; [congruence|]. auto.
        -- split.
           ++ intros [H|(Hn & Ha & kv & Hin & Hkv)]; [auto|].
              right. repeat split; try assumption.
              exists kv. split; [apply elem_of_cons; auto|exact Hkv].
           ++ intros [H|(Hn & Ha & kv & Hin & Hkv)]; [auto|].
              apply elem_of_cons in Hin. destruct Hin as [->|Hin];
                [congruence|].
              right. repeat split; try assumption. exists kv. auto.
Qed.

(** The second loop of [propagate_offer] over entries that are tracked
    or younger than [min_offer_age]: nothing happens. *)
Lemma propagate_entries_skipped forward current_tick
    (l : list (string * Z)) (w : World) :
  (∀ k a, (k, a) ∈ l →
     is_Some (forwarded_offers (engine w) !! k)
     ∨ (current_tick - a < min_offer_age (engine w))%Z) →
  for_each l (propagate_entry owner forward current_tick) w = (w, inr tt).
Proof.
  induction l as [|[k a] l IH]; intros H; [reflexivity|].
  cbn [for_each].
  erewrite bind_inr; [apply IH|].
  - intros k' a' Hin. apply H. apply elem_of_cons. auto.
  - unfold propagate_entry. cbn [fst snd]. rewrite bind_get.
    destruct (H k a) as [Ht|Hy]; [apply elem_of_cons; auto| |].
    + rewrite bool_decide_eq_true_2 by exact Ht. reflexivity.
    + case_bool_decide; [reflexivity|].
      rewrite bool_decide_eq_true_2 by exact Hy. reflexivity.
Qed.

(** X21.  [propagate_offer] while no watched offer is old enough (every
    age entry is tracked already or younger than [min_offer_age], which
    is positive): the source offers seen for the first time get the
    current tick as their age, the ages recorded before are not
    overwritten, and nothing is forwarded: [_forward_offer] is not
    called, the markets and [forwarded_offers] are unchanged. *)
Theorem propagate_offer_before_min_age forward current_tick (w : World) :
  (0 < min_offer_age (engine w))%Z →
  (∀ k a, offer_age (engine w) !! k = Some a →
     is_Some (forwarded_offers (engine w) !! k)
     ∨ (current_tick - a < min_offer_age (engine w))%Z) →
  ∃ ages',
    propagate_offer_with owner forward current_tick w
    = (set_engine (set_offer_age (λ _, ages')) w, inr tt)
    ∧ ∀ k a, ages' !! k = Some a ↔
        offer_age (engine w) !! k = Some a
        ∨ (offer_age (engine w) !! k = None ∧ a = current_tick
           ∧ ∃ j o, BalancingMarket.offers (source w) !! j = Some o
                    ∧ Offer.id o = k).
Proof.
  intros Hmin Hold.
  destruct (propagate_offer_store_ages current_tick
              (map_to_list (BalancingMarket.offers (source w))) w)
    as (ages' & Hrun & Hchar).
  assert (∀ k a, ages' !! k = Some a ↔
            offer_age (engine w) !! k = Some a
            ∨ (offer_age (engine w) !! k = None ∧ a = current_tick
               ∧ ∃ j o, BalancingMarket.offers (source w) !! j = Some o
                        ∧ Offer.id o = k)) as Hchar'.
  { intros k a. rewrite Hchar. split.
    - intros [H|(Hn & Ha & [j o] & Hin & Hk)]; [auto|].
      right. repeat split; try assumption.
      exists j, o. split; [apply elem_of_map_to_list; exact Hin|exact Hk].
    - intros [H|(Hn & Ha & j & o & Hin & Hk)]; [auto|].
      right. repeat split; try assumption.
      exists (j, o). split; [apply elem_of_map_to_list; exact Hin|exact Hk]. }
  exists ages'. split; [|exact Hchar'].
  unfold propagate_offer_with. rewrite bind_get.
  erewrite bind_inr; [|exact Hrun].
  rewrite bind_get.
  apply propagate_entries_skipped.
  intros k a Hin. apply elem_of_map_to_list in Hin.
  cbn [engine set_engine offer_age set_offer_age] in Hin.
  apply Hchar' in Hin.
  replace (forwarded_offers (engine (set_engine (set_offer_age (λ _, ages')) w)))
    with (forwarded_offers (engine w)) by (destruct w as [[] ? ?]; reflexivity).
  replace (min_offer_age (engine (set_engine (set_offer_age (λ _, ages')) w)))
    with (min_offer_age (engine w)) by (destruct w as [[] ? ?]; reflexivity).
  destruct Hin as [H|(_ & -> & _)]; [eauto|].
  right. lia.
Qed.

(** X22.  [IAAEngine._forward_offer] for an offer of non-negative price
    that the owner posts in the target market: the offer is posted
    without event, the pair is recorded under the id of the offer and
    under the id of its mirror, and only then the offer event of the
    target market is dispatched, so the listeners of that event find
    the record; the mirror is returned when the dispatch returns. *)
Theorem forward_offer_records_before_dispatch offer mirror (w w1 : World) :
  ¬ (Offer.energy offer == 0)%Q →
  (0 <= Offer.price offer)%Q →
  post_offer owner
    (update_forwarded_offer_with_fee owner
       (Offer.price offer / Offer.energy offer)
       (Offer.original_price offer / Offer.energy offer)
     * Offer.energy offer)%Q
    (Offer.energy offer) (owner_name owner) (Offer.original_price offer)
    false (Offer.seller_origin offer) (Offer.seller_origin_id offer)
    (Some (owner_uuid owner)) w = (w1, inr mirror) →
  ∃ w2,
    w2 = set_engine (set_forwarded_offers (λ _,
           <[Offer.id mirror := mkOfferInfo offer mirror]>
             (<[Offer.id offer := mkOfferInfo offer mirror]>
                (forwarded_offers (engine w1))))) w1
    ∧ forwarded_offers (engine w2) !! Offer.id offer
      = Some (mkOfferInfo offer mirror)
    ∧ forwarded_offers (engine w2) !! Offer.id mirror
      = Some (mkOfferInfo offer mirror)
    ∧ _forward_offer owner offer w
      = (fst (dispatch_market_offer_event owner mirror w2),
         match snd (dispatch_market_offer_event owner mirror w2) with
         | inl e => inl e
         | inr _ => inr (Some mirror)
         end).
Proof.
  intros HE Hp Hpost.
  destruct (_add_to_forward_offers_spec offer mirror w1) as (Hadd & Hls & Hlt).
  eexists. split; [reflexivity|]. split; [exact Hls|]. split; [exact Hlt|].
  unfold _forward_offer.
  apply Qltb_false in Hp. rewrite Hp.
  rewrite (bind_inr _ _ w w1 (Some mirror)).
  - erewrite bind_inr; [|exact Hadd].
    unfold bind.
    destruct (dispatch_market_offer_event owner mirror _) as [w3 [e|[]]];
      reflexivity.
  - apply try_except_inr.
    erewrite bind_inr; [reflexivity|].
    unfold _offer_in_market, Offer.energy_rate.
    rewrite (py_div_ok _ _ HE), bind_lift_inr, (py_div_ok _ _ HE),
      bind_lift_inr. exact Hpost.
Qed.
End EngineExtras.

Section EngineExtrasExamples.
Import IAAEngine.

Lemma forwarded_offers_add_then_delete_witness :
  ∃ w1,
    _add_to_forward_offers Demo.S1 Demo.T1 Demo.world_unseen = (w1, inr tt)
    ∧ forwarded_offers (engine w1) !! "s1"
      = Some (mkOfferInfo Demo.S1 Demo.T1)
    ∧ forwarded_offers (engine w1) !! "t1"
      = Some (mkOfferInfo Demo.S1 Demo.T1)
    ∧ ∃ w2,
        _delete_forwarded_offer_entries Demo.T1 w1 = (w2, inr tt)
        ∧ forwarded_offers (engine w2)
          = forwarded_offers (engine Demo.world_unseen).
Proof.
  destruct (forwarded_offers_add_then_delete Demo.S1 Demo.T1
              Demo.world_unseen eq_refl eq_refl)
    as (w1 & Hadd & Hs & Ht & _ & Hdel).
  exists w1. split; [exact Hadd|]. split; [exact Hs|]. split; [exact Ht|].
  destruct (Hdel Demo.T1 (or_intror eq_refl)) as (w2 & H2 & Hfo & _).
  exists w2. split; [exact H2|exact Hfo].
Defined.

Lemma balancing_forward_offer_witness :
  ∃ mirror w',
    BalancingEngine._forward_offer Demo.owner Demo.S1 Demo.world_unseen
      = (w', inr (Some mirror))
    ∧ Offer.price mirror = Offer.price Demo.S1
    ∧ Offer.energy mirror = Offer.energy Demo.S1
    ∧ Offer.seller mirror = "IAA"
    ∧ forwarded_offers (engine w') !! "s1"
      = Some (mkOfferInfo Demo.S1 mirror)
    ∧ propagate_entry Demo.owner (BalancingEngine._forward_offer Demo.owner)
        5 ("s1", 0%Z) w' = (w', inr tt).
Proof.
  destruct (balancing_forward_offer Demo.owner Demo.S1 5 0 Demo.world_unseen
              eq_refl ltac:(intros H; vm_compute in H; discriminate H))
    as (mirror & w' & H1 & _ & H2 & H3 & H4 & _ & _ & _ & _ & H5 & _ & H6).
  exists mirror, w'. repeat split; assumption.
Defined.

Lemma balancing_forward_offer_raises_witness :
  BalancingEngine._forward_offer Demo.owner Demo.S1
    (mkWorld (engine Demo.world_unseen) (source Demo.world_unseen)
       Demo.closed_market_A)
  = (mkWorld (engine Demo.world_unseen) (source Demo.world_unseen)
       Demo.closed_market_A,
     inl MarketReadOnlyException).
Proof.
  apply (balancing_forward_offer_raises Demo.owner Demo.S1
           (mkWorld (engine Demo.world_unseen) (source Demo.world_unseen)
              Demo.closed_market_A)).
  left. reflexivity.
Defined.

Lemma forward_offer_not_posted_witness :
  (* an offer of negative price *)
  _forward_offer Demo.owner Demo.negative_offer Demo.world_unseen
    = (Demo.world_unseen, inr None)
  (* a target market that raises [MarketReadOnlyException] *)
  ∧ _forward_offer Demo.owner Demo.S1
      (mkWorld (engine Demo.world_unseen) (source Demo.world_unseen)
         Demo.closed_market_A)
    = (mkWorld (engine Demo.world_unseen) (source Demo.world_unseen)
         Demo.closed_market_A,
       inr None).
Proof.
  split.
  - apply (proj1 (forward_offer_not_posted Demo.owner Demo.negative_offer
                    Demo.world_unseen)).
    reflexivity.
  - apply (proj2 (forward_offer_not_posted Demo.owner Demo.S1
                    (mkWorld (engine Demo.world_unseen)
                       (source Demo.world_unseen) Demo.closed_market_A))
             MarketReadOnlyException
             (mkWorld (engine Demo.world_unseen) (source Demo.world_unseen)
                Demo.closed_market_A)).
    + vm_compute. intros H. discriminate H.
    + intros H. vm_compute in H. discriminate H.
    + vm_compute. reflexivity.
Defined.

Lemma forward_offer_records_before_dispatch_witness :
  ∃ mirror w2,
    forwarded_offers (engine w2) !! "s1" = Some (mkOfferInfo Demo.S1 mirror)
    ∧ forwarded_offers (engine w2) !! Offer.id mirror
      = Some (mkOfferInfo Demo.S1 mirror)
    ∧ _forward_offer Demo.owner Demo.S1 Demo.world_unseen
      = (fst (dispatch_market_offer_event Demo.owner mirror w2),
         match snd (dispatch_market_offer_event Demo.owner mirror w2) with
         | inl e => inl e
         | inr _ => inr (Some mirror)
         end).
Proof.
  destruct (forward_offer_records_before_dispatch Demo.owner Demo.S1
              (Offer.BalancingOffer "t" 0 (20 / 10 * 10) 10 "IAA" None None
                 None 0)
              Demo.world_unseen
              (mkWorld (engine Demo.world_unseen) (source Demo.world_unseen)
                 (BalancingMarket.set_offer_history
                    (λ h, h ++ [Offer.BalancingOffer "t" 0 (20 / 10 * 10) 10
                                  "IAA" None None None 0])
                    (BalancingMarket.set_offers
                       (insert "t" (Offer.BalancingOffer "t" 0 (20 / 10 * 10)
                                      10 "IAA" None None None 0))
                       Demo.empty_market)))
              ltac:(intros H; vm_compute in H; discriminate H)
              ltac:(intros H; vm_compute in H; discriminate H)
              ltac:(vm_compute; reflexivity))
    as (w2 & _ & Hs & Ht & Hrun).
  eexists _, w2. split; [exact Hs|]. split; [exact Ht|exact Hrun].
Defined.


Lemma event_offer_deleted_tracked_witness :
  (* the mirror "t1" is deleted: the record stays *)
  event_offer_deleted Demo.owner Demo.T1 Demo.world_both_live
    = (set_engine (set_offer_age (delete "t1")) Demo.world_both_live, inr tt)
  (* the source offer "s1" is deleted: its mirror is deleted too *)
  ∧ ∃ w',
      event_offer_deleted Demo.owner Demo.S1 Demo.world_both_live
        = (w', inr tt)
      ∧ forwarded_offers (engine w') = ∅
      ∧ BalancingMarket.offers (target w') = ∅.
Proof.
  split.
  - apply (proj1 (event_offer_deleted_tracked Demo.owner Demo.T1
                    (mkOfferInfo Demo.S1 Demo.T1) Demo.world_both_live
                    ltac:(vm_compute; reflexivity))).
    intros H. discriminate H.
  - eexists. split.
    + apply (proj1 (proj2 (event_offer_deleted_tracked Demo.owner Demo.S1
               (mkOfferInfo Demo.S1 Demo.T1) Demo.world_both_live
               ltac:(vm_compute; reflexivity)) eq_refl
               (fst (delete_offer Demo.owner Demo.T1
                       (set_engine (set_offer_age (delete "s1"))
                          Demo.world_both_live))))).
      * vm_compute. reflexivity.
      * vm_compute. reflexivity.
    + split; vm_compute; reflexivity.
Defined.

Lemma event_offer_split_in_target_witness :
  ∃ local_split local_residual w',
    event_offer_split Demo.owner "target" Demo.T1 Demo.accepted_mirror
      Demo.residual_mirror Demo.world_target_split = (w', inr tt)
    ∧ target w' = target Demo.world_target_split
    ∧ Offer.id local_split = "s1"
    ∧ Offer.energy local_split = 4%Q
    ∧ Offer.energy local_residual = (10 - 4)%Q
    ∧ forwarded_offers (engine w') !! "s1"
      = Some (mkOfferInfo local_split Demo.accepted_mirror)
    ∧ forwarded_offers (engine w') !! "t1"
      = Some (mkOfferInfo local_split Demo.accepted_mirror)
    ∧ paired (forwarded_offers (engine w')).
Proof.
  destruct (event_offer_split_in_target Demo.owner "target" Demo.T1
              Demo.accepted_mirror Demo.residual_mirror
              (mkOfferInfo Demo.S1 Demo.T1) Demo.world_target_split
              eq_refl
              ltac:(eexists; vm_compute; reflexivity)
              ltac:(vm_compute; reflexivity)
              eq_refl
              ltac:(intros H; vm_compute in H; discriminate H)
              ltac:(intros H; vm_compute in H; discriminate H)
              ltac:(intros H; vm_compute in H; discriminate H))
    as (ls & lr & w' & Hrun & Hsplit & Ht & Hid & He & Her & Hfo & _ & Hp).
  assert (Hs := f_equal snd Hsplit). cbn [snd] in Hs. vm_compute in Hs.
  injection Hs as Hls Hlr.
  exists ls, lr, w'. split; [exact Hrun|]. split; [exact Ht|].
  split; [rewrite <- Hls; reflexivity|].
  split; [rewrite <- Hls; reflexivity|].
  split; [rewrite <- Hlr; reflexivity|].
  split; [rewrite Hfo, <- Hls, <- Hlr; vm_compute; reflexivity|].
  split; [rewrite Hfo, <- Hls, <- Hlr; vm_compute; reflexivity|].
  apply Hp.
  - intros k info Hk.
    change (forwarded_offers (engine Demo.world_target_split))
      with (<["s1" := mkOfferInfo Demo.S1 Demo.T1]>
              (<["t1" := mkOfferInfo Demo.S1 Demo.T1]> ∅)
            : gmap string OfferInfo) in *.
    rewrite !lookup_insert in Hk.
    repeat case_decide; try (rewrite lookup_empty in Hk; discriminate Hk);
      injection Hk as <-; subst; cbn;
      (split; [auto|split; vm_compute; reflexivity]).
  - vm_compute. reflexivity.
  - vm_compute. reflexivity.
  - rewrite <- Hlr. vm_compute. reflexivity.
Defined.

Lemma propagate_offer_before_min_age_witness :
  ∃ ages',
    BalancingEngine.propagate_offer Demo.owner 0 Demo.world_unseen
      = (set_engine (set_offer_age (λ _, ages')) Demo.world_unseen, inr tt)
    ∧ ages' !! "s1" = Some 0%Z.
Proof.
  destruct (propagate_offer_before_min_age Demo.owner
              (BalancingEngine._forward_offer Demo.owner) 0 Demo.world_unseen
              ltac:(reflexivity)
              ltac:(intros k a H; cbn in H; rewrite lookup_empty in H;
                    discriminate H))
    as (ages' & Hrun & Hchar).
  exists ages'. split; [exact Hrun|].
  apply Hchar. right. split; [reflexivity|]. split; [reflexivity|].
  exists "s1", Demo.S1. split; [vm_compute; reflexivity|reflexivity].
Defined.
End EngineExtrasExamples.
